(** * phd_listing_agent: the scraping pipeline of [main.py]

    A shallow embedding of [main.py]: the configuration loader, the two
    HTML extractors, the two model-backed stages and the orchestrator
    [main_agent], followed by the properties of the pipeline.

    Python values that come out of [json.loads] are values of [json];
    Python [None] is [JNull].  A [str] is a Rocq [string], one [ascii]
    per character (code points below 256).  Everything the program
    reaches through a library call (the HTTP client, the model client,
    the HTML parser, the JSON decoder) is a field of the class
    [Externals]; effects are threaded through a small monad that
    carries the state of the outside world, the events issued, and a
    raised exception. *)

From Stdlib Require Import List String Ascii ZArith Bool Arith Lia.
From Stdlib Require Import SpecFloat.
Import ListNotations.
Open Scope string_scope.
Set Warnings "-register-all".

(** ** Python strings *)

Module PyStr.

(** A double quote, for texts that contain one. *)
Definition dq : string := String (ascii_of_nat 34) EmptyString.
Definition quoted (s : string) : string := dq ++ s ++ dq.

(** A line feed. *)
Definition nl : string := String (ascii_of_nat 10) EmptyString.

(** [s.startswith(p)] *)
Definition startswith (p s : string) : bool := prefix p s.

(** [s.endswith(x)] *)
Fixpoint endswith (x s : string) : bool :=
  (s =? x) ||
  match s with
  | EmptyString => false
  | String _ s' => endswith x s'
  end.

(** [s[n:]] *)
Fixpoint drop (n : nat) (s : string) : string :=
  match n, s with
  | O, _ => s
  | S _, EmptyString => EmptyString
  | S n', String _ s' => drop n' s'
  end.

(** [s[:n]] *)
Fixpoint take (n : nat) (s : string) : string :=
  match n, s with
  | O, _ => EmptyString
  | S _, EmptyString => EmptyString
  | S n', String c s' => String c (take n' s')
  end.

(** [s.removeprefix(p)]: [s[len(p):]] when [s] starts with [p], else [s]. *)
Definition removeprefix (p s : string) : string :=
  if startswith p s then drop (length p) s else s.

(** [s.removesuffix(x)]: [s[:-len(x)]] when [x] is not empty and [s] ends
    with it, else [s]. *)
Definition removesuffix (x s : string) : string :=
  if negb (x =? "") && endswith x s then take (length s - length x) s else s.

(** [needle in hay] *)
Fixpoint contains (needle hay : string) : bool :=
  prefix needle hay ||
  match hay with
  | EmptyString => false
  | String _ h => contains needle h
  end.

(** [c.isspace()] for a character below 256. *)
Definition isspace (c : ascii) : bool :=
  let n := nat_of_ascii c in
  (((9 <=? n) && (n <=? 13)) || ((28 <=? n) && (n <=? 32))
   || (n =? 133) || (n =? 160))%nat.

Fixpoint lstrip (s : string) : string :=
  match s with
  | EmptyString => EmptyString
  | String c s' => if isspace c then lstrip s' else s
  end.

Fixpoint rstrip (s : string) : string :=
  match s with
  | EmptyString => EmptyString
  | String c s' =>
      let r := rstrip s' in
      if (r =? "") && isspace c then EmptyString else String c r
  end.

(** [s.strip()] *)
Definition strip (s : string) : string := rstrip (lstrip s).

(** [sep.join(l)] *)
Definition join (sep : string) (l : list string) : string := concat sep l.

(** [x in l] for a list of strings. *)
Definition mem (x : string) (l : list string) : bool :=
  existsb (String.eqb x) l.

(** What a text starts and ends with. *)
Definition first_char (s : string) : option ascii :=
  match s with
  | EmptyString => None
  | String c _ => Some c
  end.

Fixpoint last_char (s : string) : option ascii :=
  match s with
  | EmptyString => None
  | String c s' =>
      match last_char s' with
      | Some d => Some d
      | None => Some c
      end
  end.

(** The characters of a string, as Python iterates over it. *)
Fixpoint chars (s : string) : list string :=
  match s with
  | EmptyString => []
  | String c s' => String c EmptyString :: chars s'
  end.

End PyStr.
Import PyStr.

(** ** JSON values, as [json.loads] builds them *)

(** A [float] is a binary floating-point number, with its two zeros,
    its infinities and NaN.  A [dict] keeps its keys in insertion
    order: an association list without repeated keys. *)
Inductive json : Type :=
| JNull
| JBool (b : bool)
| JInt (z : Z)
| JFloat (x : spec_float)
| JStr (s : string)
| JArr (l : list json)
| JObj (kvs : list (string * json)).

Definition dict : Type := list (string * json).

(** [bool(v)] *)
Definition truthy (v : json) : bool :=
  match v with
  | JNull => false
  | JBool b => b
  | JInt z => negb (z =? 0)%Z
  | JFloat x => match x with S754_zero _ => false | _ => true end
  | JStr s => negb (s =? "")
  | JArr l => match l with [] => false | _ => true end
  | JObj kvs => match kvs with [] => false | _ => true end
  end.

Definition is_object (v : json) : bool :=
  match v with JObj _ => true | _ => false end.

(** [d.get(k)] *)
Fixpoint dict_get (k : string) (d : dict) : option json :=
  match d with
  | [] => None
  | (k', v) :: d' => if k' =? k then Some v else dict_get k d'
  end.

(** [d[k] = v]: the value is replaced where the key stands, or the
    pair is added at the end. *)
Fixpoint dict_set (k : string) (v : json) (d : dict) : dict :=
  match d with
  | [] => [(k, v)]
  | (k', v') :: d' =>
      if k' =? k then (k', v) :: d' else (k', v') :: dict_set k v d'
  end.

Definition keys (d : dict) : list string := map fst d.

(** [k in d] *)
Definition dict_mem (k : string) (d : dict) : bool := mem k (keys d).

(** What Python does with a decoded value where the program applies
    [len], [for ... in], [in] and [.get] to it.  [None] stands for the
    [TypeError] or [AttributeError] Python raises on a value without
    that operation. *)

(** [len(v)] *)
Definition py_len (v : json) : option nat :=
  match v with
  | JStr s => Some (length s)
  | JArr l => Some (List.length l)
  | JObj d => Some (List.length d)
  | _ => None
  end.

(** The items [for x in v] visits: the elements of a list, the keys of
    a dict, the characters of a string. *)
Definition py_iter (v : json) : option (list json) :=
  match v with
  | JStr s => Some (map JStr (chars s))
  | JArr l => Some l
  | JObj d => Some (map JStr (keys d))
  | _ => None
  end.

Definition is_str (k : string) (v : json) : bool :=
  match v with JStr s => s =? k | _ => false end.

(** [k in v] for a string [k] *)
Definition py_contains (k : string) (v : json) : option bool :=
  match v with
  | JStr s => Some (contains k s)
  | JArr l => Some (existsb (is_str k) l)
  | JObj d => Some (dict_mem k d)
  | _ => None
  end.

(** ** Parsed HTML, as BeautifulSoup presents it *)

Inductive node : Type :=
| Text (s : string)
| Comment (s : string)
| Elem (tag : string) (attrs : list (string * string)) (children : list node).

(** [tag[name]] / [tag.get(name)] *)
Fixpoint get_attr (name : string) (attrs : list (string * string))
  : option string :=
  match attrs with
  | [] => None
  | (k, v) :: rest => if k =? name then Some v else get_attr name rest
  end.

(** [tag.find_all(...)]: the matching elements below (and here at) a
    node, in document order. *)
Fixpoint find_all (p : string -> list (string * string) -> bool) (n : node)
  : list node :=
  match n with
  | Elem t a cs => ((if p t a then [n] else []) ++ flat_map (find_all p) cs)%list
  | _ => []
  end.

(** [soup.find_all(...)] on a document, the list of its top nodes. *)
Definition soup_find_all (p : string -> list (string * string) -> bool)
  (soup : list node) : list node :=
  flat_map (find_all p) soup.

(** [tag.get_text(strip=True)]: every text below the element, each one
    stripped and dropped when nothing is left, put together without a
    separator.  Comments are no text. *)
Fixpoint all_strings (n : node) : list string :=
  match n with
  | Text s => let s' := strip s in if s' =? "" then [] else [s']
  | Comment _ => []
  | Elem _ _ cs => flat_map all_strings cs
  end.

Definition get_text_strip (n : node) : string := join "" (all_strings n).

(** [for tag in soup(names): tag.decompose()]: every element with one of
    the names leaves the tree with all it contains; the rest stays as
    it is. *)
Fixpoint decompose_all (names : list string) (n : node) : list node :=
  match n with
  | Elem t a cs =>
      if mem t names then []
      else [Elem t a (flat_map (decompose_all names) cs)]
  | other => [other]
  end.

Definition soup_decompose (names : list string) (soup : list node)
  : list node :=
  flat_map (decompose_all names) soup.

(** ** The two extractors on a parsed page *)

Definition noise_tags : list string :=
  ["script"; "style"; "nav"; "footer"; "header"].

Definition content_tags : list string :=
  ["p"; "h1"; "h2"; "h3"; "h4"; "li"].

Definition listings_marker : string := "/phds/".
Definition base_origin : string := "https://www.findaphd.com".

(** The body of the loop at lines 137-142, for one [<a href>] element. *)
Definition link_step (links : list string) (a : node) : list string :=
  match a with
  | Elem _ attrs _ =>
      match get_attr "href" attrs with
      | Some href =>
          if contains listings_marker href then
            let full_url :=
              if startswith "http" href then href else base_origin ++ href in
            if mem full_url links then links else (links ++ [full_url])%list
          else links
      | None => links
      end
  | _ => links
  end.

Definition is_anchor_with_href (t : string) (attrs : list (string * string))
  : bool :=
  (t =? "a") && match get_attr "href" attrs with Some _ => true | None => false end.

(** Lines 133-145 on the parsed page. *)
Definition harvest_links (soup : list node) : list string :=
  fold_left link_step (soup_find_all is_anchor_with_href soup) [].

(** The body of the loop at lines 173-176, for one content element. *)
Definition text_step (text_elements : list string) (tag : node)
  : list string :=
  let text := get_text_strip tag in
  if negb (text =? "") && (10 <? length text)%nat
  then (text_elements ++ [text])%list
  else text_elements.

(** Lines 165-176 on the parsed page: the fragments kept. *)
Definition text_elements_of (soup : list node) : list string :=
  let soup := soup_decompose noise_tags soup in
  fold_left text_step
    (soup_find_all (fun t _ => mem t content_tags) soup) [].

(** Lines 165-178. *)
Definition clean_text_of (soup : list node) : string :=
  join nl (text_elements_of soup).

(** ** The outside world and the effects of a run *)

Inductive exn : Type :=
| FileNotFoundError (msg : string)
| JSONDecodeError
| ValueError (msg : string)
| TypeError
| AttributeError.

Inductive level : Type := DEBUG | INFO | WARNING | ERROR.

(** One constructor per [logger] call of the program, with the values
    its message interpolates. *)
Inductive logmsg : Type :=
| MsgConfigNotFound
| MsgConfigUnreadable
| MsgConfigMissing (fields : string)
| MsgConfigLoaded
| MsgGenerating (user_prompt : string)
| MsgQueriesResponse (response_text : string)
| MsgGenerated (n : nat)
| MsgFetchingLinks (search_url : json)
| MsgFoundLinks (n : nat)
| MsgFetchError (url : json)
| MsgExtractingText (project_url : string)
| MsgExtractedText (n : nat)
| MsgExtractingInfo
| MsgBlobTooShort
| MsgExtractionResponse (response_text : string)
| MsgExtractionUnparsed
| MsgBanner
| MsgStarting
| MsgUserRequest (user_prompt : string)
| MsgQueriesUnparsed
| MsgQuery (query_idx total : nat) (query_url : json)
| MsgNoLinks (query_idx : nat)
| MsgReachedMax (max_projects : option Z)
| MsgProject (link_idx total : nat) (url : string)
| MsgNoText (url : string)
| MsgAccepted (title : json)
| MsgFailed (url : string)
| MsgSaved (n : nat)
| MsgColumns (columns : string)
| MsgNothing.

(** What a run does that can be seen from outside. *)
Inductive event : Type :=
| Get (url : json)
| Sleep (seconds : nat)
| Completion (content response : string)
| Stdout (text : string)
| Log (lvl : level) (m : logmsg)
| ToCsv (path : string) (columns : list string)
        (rows : list (list (option json))).

(** The libraries the program calls.  [requests_get url headers timeout]
    is [requests.get] followed by [raise_for_status]: the text of the
    response, or [None] for a [RequestException].  [completions_create]
    takes the content of the one user message and gives the content of
    the first choice.  [json_loads] gives [None] for a
    [JSONDecodeError].  Other exceptions of these libraries (a failing
    model call, a page the parser rejects, a decoder error that is no
    [JSONDecodeError]) are not part of this world: what is proved says
    what the program does when the calls come back in one of these
    ways. *)
Class Externals : Type := {
  World : Type;
  requests_get :
    json -> list (string * string) -> nat -> World -> option string * World;
  completions_create : string -> World -> string * World;
  BeautifulSoup : string -> list node;
  json_loads : string -> option json
}.

Inductive outcome (A : Type) : Type :=
| Ret (a : A)
| Raise (e : exn).
Arguments Ret {A} a.
Arguments Raise {A} e.

(** A computation: from the world before to the result, the world after
    and the events issued on the way. *)
Definition M `{Externals} (A : Type) : Type :=
  World -> outcome A * World * list event.

Definition ret `{Externals} {A : Type} (a : A) : M A :=
  fun w => (Ret a, w, []).

Definition bind `{Externals} {A B : Type} (m : M A) (f : A -> M B) : M B :=
  fun w =>
    match m w with
    | (Ret a, w', ev) =>
        match f a w' with
        | (r, w'', ev') => (r, w'', (ev ++ ev')%list)
        end
    | (Raise e, w', ev) => (Raise e, w', ev)
    end.

Definition raise `{Externals} {A : Type} (e : exn) : M A :=
  fun w => (Raise e, w, []).

(** [try: m except <e with catches e>: handler] *)
Definition try_except `{Externals} {A : Type}
  (m : M A) (catches : exn -> bool) (handler : M A) : M A :=
  fun w =>
    match m w with
    | (Raise e, w', ev) =>
        if catches e then
          match handler w' with
          | (r, w'', ev') => (r, w'', (ev ++ ev')%list)
          end
        else (Raise e, w', ev)
    | done => done
    end.

Definition emit `{Externals} (e : event) : M unit :=
  fun w => (Ret tt, w, [e]).

Definition log `{Externals} (lvl : level) (m : logmsg) : M unit :=
  emit (Log lvl m).

Notation "x <- c1 ;; c2" := (bind c1 (fun x => c2))
  (at level 61, c1 at next level, right associativity).
Notation "c1 ;; c2" := (bind c1 (fun _ => c2))
  (at level 61, right associativity).

(** [get_headers()], lines 61-75. *)
Definition get_headers : list (string * string) :=
  [ ("User-Agent", "Mozilla/5.0 (Macintosh; Intel Mac OS X 10_15_7) AppleWebKit/537.36 (KHTML, like Gecko) Chrome/120.0.0.0 Safari/537.36");
    ("Accept", "text/html,application/xhtml+xml,application/xml;q=0.9,image/webp,*/*;q=0.8");
    ("Accept-Language", "en-US,en;q=0.5");
    ("Accept-Encoding", "gzip, deflate");
    ("DNT", "1");
    ("Connection", "keep-alive");
    ("Upgrade-Insecure-Requests", "1");
    ("Sec-Fetch-Dest", "document");
    ("Sec-Fetch-Mode", "navigate");
    ("Sec-Fetch-Site", "none");
    ("Cache-Control", "max-age=0") ].

(** [requests.get(url, headers=get_headers(), timeout=10)] and
    [response.raise_for_status()]. *)
Definition http_get `{Externals} (url : json) : M (option string) :=
  fun w =>
    match requests_get url get_headers 10 w with
    | (response, w') => (Ret response, w', [Get url])
    end.

(** [client.chat.completions.create(...)] and
    [message.choices[0].message.content]. *)
Definition complete `{Externals} (content : string) : M string :=
  fun w =>
    match completions_create content w with
    | (response_text, w') =>
        (Ret response_text, w', [Completion content response_text])
    end.

(** ** The program *)

Definition config_file : string := "config.json".

Definition required_fields : list string :=
  ["api_key"; "api_base"; "model_name"].

(** The condition of the comprehension at line 37,
    [field not in config or not config[field]], on a decoded settings
    value.  On a list or a string that holds the name, [config[field]]
    is a [TypeError]; so is [in] on a number, a boolean or [None]. *)
Definition field_missing (config : json) (field : string) : outcome bool :=
  match py_contains field config with
  | None => Raise TypeError
  | Some false => Ret true
  | Some true =>
      match config with
      | JObj d =>
          match dict_get field d with
          | Some v => Ret (negb (truthy v))
          | None => Ret true
          end
      | _ => Raise TypeError
      end
  end.

(** The comprehension at line 37, field by field. *)
Fixpoint missing_fields_of (config : json) (fields : list string)
  : outcome (list string) :=
  match fields with
  | [] => Ret []
  | field :: rest =>
      match field_missing config field with
      | Raise e => Raise e
      | Ret b =>
          match missing_fields_of config rest with
          | Raise e => Raise e
          | Ret l => Ret (if b then field :: l else l)
          end
      end
  end.

(** [config.get(k)], [None] when the key is absent. *)
Definition config_get (config : json) (k : string) : outcome json :=
  match config with
  | JObj d =>
      match dict_get k d with
      | Some v => Ret v
      | None => Ret JNull
      end
  | _ => Raise AttributeError
  end.

Definition lift `{Externals} {A : Type} (o : outcome A) : M A :=
  match o with
  | Ret a => ret a
  | Raise e => raise e
  end.

(** [load_config()], lines 20-48.  [file] is the content of
    [config.json], [None] when the file does not exist. *)
Definition load_config `{Externals} (file : option string)
  : M (json * json * json) :=
  match file with
  | None =>
      log ERROR MsgConfigNotFound ;;
      raise (FileNotFoundError ("Missing required file: " ++ config_file))
  | Some text =>
      config <- try_except
                  (match json_loads text with
                   | Some config => ret config
                   | None => raise JSONDecodeError
                   end)
                  (fun e => match e with JSONDecodeError => true | _ => false end)
                  (log ERROR MsgConfigUnreadable ;; raise JSONDecodeError) ;;
      missing_fields <- lift (missing_fields_of config required_fields) ;;
      match missing_fields with
      | _ :: _ =>
          log ERROR (MsgConfigMissing (join ", " missing_fields)) ;;
          raise (ValueError ("Missing required configuration fields: "
                             ++ join ", " missing_fields))
      | [] =>
          api_key <- lift (config_get config "api_key") ;;
          api_base <- lift (config_get config "api_base") ;;
          model_name <- lift (config_get config "model_name") ;;
          log INFO MsgConfigLoaded ;;
          ret (api_key, api_base, model_name)
      end
  end.

Definition lines (l : list string) : string := join nl l.

Definition indent : string := "                ".

(** The content of the message at lines 93-105. *)
Definition query_prompt (user_prompt : string) : string :=
  lines
    [ "You are a PhD search query generator for FindAPhD.com.";
      indent;
      indent ++ "Given the user's request, generate 4 specific, relevant search query URLs for FindAPhD based on keywords.";
      indent;
      indent ++ "User request: " ++ user_prompt;
      indent;
      indent ++ "Return ONLY a JSON list of URLs (strings) in this format:";
      indent ++ "[";
      indent ++ quoted "https://www.findaphd.com/phds/united-kingdom/?g0w900&Keywords=llm+optimisation" ++ ",";
      indent ++ quoted "https://www.findaphd.com/phds/united-kingdom/?g0w900&Keywords=machine+learning";
      indent ++ "]";
      "";
      indent ++ "Make sure URLs are properly formatted with URL encoding for spaces (+) and special characters." ].

(** The content of the message at lines 210-225. *)
Definition extraction_prompt (text_blob : string) : string :=
  lines
    [ "Extract structured information from this PhD project description.";
      "";
      "Project text:";
      text_blob;
      "";
      "Return ONLY a JSON object with these fields (use null for missing info):";
      "{";
      "  " ++ quoted "title" ++ ": " ++ quoted "Project title" ++ ",";
      "  " ++ quoted "university" ++ ": " ++ quoted "University name" ++ ",";
      "  " ++ quoted "supervisor" ++ ": " ++ quoted "Supervisor name(s)" ++ ",";
      "  " ++ quoted "funding" ++ ": " ++ quoted "Funding information or null if not mentioned" ++ ",";
      "  " ++ quoted "international_eligible" ++ ": " ++ quoted "true/false/null - is international funding available?" ++ ",";
      "  " ++ quoted "alignment_score" ++ ": 0-10 (how aligned with AI/ML/data science based on the text),";
      "  " ++ quoted "subject_area" ++ ": " ++ quoted "Main subject area (e.g., Machine Learning, NLP, CV)" ++ ",";
      "  " ++ quoted "key_skills" ++ ": " ++ quoted "Key skills mentioned or required";
      "}" ].

Definition fence_open : string := "```json".
Definition fence_close : string := "```".

(** Line 112 before the decoding:
    [response_text.removeprefix("```json").removesuffix("```")]. *)
Definition strip_fences (response_text : string) : string :=
  removesuffix fence_close (removeprefix fence_open response_text).

(** Line 112: the parsing step of the query generator. *)
Definition parse_queries `{Externals} (response_text : string) : option json :=
  json_loads (strip_fences response_text).

(** [generate_search_queries(user_prompt)], lines 80-117. *)
Definition generate_search_queries `{Externals} (user_prompt : string)
  : M json :=
  log INFO (MsgGenerating user_prompt) ;;
  response_text <- complete (query_prompt user_prompt) ;;
  emit (Stdout response_text) ;;
  match parse_queries response_text with
  | None => raise JSONDecodeError
  | Some queries =>
      log DEBUG (MsgQueriesResponse response_text) ;;
      match py_len queries with
      | None => raise TypeError
      | Some n =>
          log INFO (MsgGenerated n) ;;
          ret queries
      end
  end.

(** [get_project_links(search_url)], lines 122-149. *)
Definition get_project_links `{Externals} (search_url : json)
  : M (list string) :=
  log INFO (MsgFetchingLinks search_url) ;;
  response <- http_get search_url ;;
  match response with
  | Some text =>
      emit (Sleep 3) ;;
      let links := harvest_links (BeautifulSoup text) in
      log INFO (MsgFoundLinks (List.length links)) ;;
      ret links
  | None =>
      log ERROR (MsgFetchError search_url) ;;
      ret []
  end.

(** [get_clean_text(project_url)], lines 154-184. *)
Definition get_clean_text `{Externals} (project_url : string) : M string :=
  log INFO (MsgExtractingText project_url) ;;
  response <- http_get (JStr project_url) ;;
  match response with
  | Some text =>
      emit (Sleep 3) ;;
      let text_elements := text_elements_of (BeautifulSoup text) in
      let clean_text := join nl text_elements in
      log INFO (MsgExtractedText (List.length text_elements)) ;;
      ret clean_text
  | None =>
      log ERROR (MsgFetchError (JStr project_url)) ;;
      ret ""
  end.

Definition min_blob_length : nat := 50.
Definition max_blob_length : nat := 4000.

(** [extract_project_info(text_blob, project_url)], lines 189-238.
    The result is what [json.loads] gave, or [JNull] for [None]. *)
Definition extract_project_info `{Externals}
  (text_blob : string) (project_url : string) : M json :=
  log INFO MsgExtractingInfo ;;
  if (text_blob =? "") || (length text_blob <? min_blob_length)%nat then
    log WARNING MsgBlobTooShort ;;
    ret JNull
  else
    let text_blob := take max_blob_length text_blob in
    response_text <- complete (extraction_prompt text_blob) ;;
    log DEBUG (MsgExtractionResponse (take 200 response_text)) ;;
    match json_loads response_text with
    | Some project_info => ret project_info
    | None =>
        log ERROR MsgExtractionUnparsed ;;
        ret JNull
    end.

(** [max_projects and len(all_projects) >= max_projects], lines 274 and
    297.  [max_projects] is [None] or an integer. *)
Definition cap_reached (max_projects : option Z) (all_projects : list dict)
  : bool :=
  match max_projects with
  | None => false
  | Some c =>
      negb (c =? 0)%Z && (c <=? Z.of_nat (List.length all_projects))%Z
  end.

(** [project_info.get('title', 'Unknown')] *)
Definition title_of (project_info : dict) : json :=
  match dict_get "title" project_info with
  | Some v => v
  | None => JStr "Unknown"
  end.

(** The loop over the links of one results page, lines 273-295.
    [link_idx] counts from 1; [total] is [len(project_links)]. *)
Fixpoint links_loop `{Externals} (max_projects : option Z) (total : nat)
  (links : list string) (link_idx : nat) (all_projects : list dict)
  : M (list dict) :=
  match links with
  | [] => ret all_projects
  | url :: rest =>
      if cap_reached max_projects all_projects then
        log INFO (MsgReachedMax max_projects) ;;
        ret all_projects
      else
        log INFO (MsgProject link_idx total url) ;;
        text_blob <- get_clean_text url ;;
        if text_blob =? "" then
          log WARNING (MsgNoText url) ;;
          links_loop max_projects total rest (S link_idx) all_projects
        else
          project_info <- extract_project_info text_blob url ;;
          if truthy project_info then
            match project_info with
            | JObj d =>
                let d := dict_set "url" (JStr url) d in
                let all_projects := (all_projects ++ [d])%list in
                log INFO (MsgAccepted (title_of d)) ;;
                links_loop max_projects total rest (S link_idx) all_projects
            | _ => raise TypeError
            end
          else
            log WARNING (MsgFailed url) ;;
            links_loop max_projects total rest (S link_idx) all_projects
  end.

(** The loop over the search queries, lines 262-298. *)
Fixpoint queries_loop `{Externals} (max_projects : option Z) (total : nat)
  (queries : list json) (query_idx : nat) (all_projects : list dict)
  : M (list dict) :=
  match queries with
  | [] => ret all_projects
  | query_url :: rest =>
      log INFO (MsgQuery query_idx total query_url) ;;
      project_links <- get_project_links query_url ;;
      match project_links with
      | [] =>
          log WARNING (MsgNoLinks query_idx) ;;
          queries_loop max_projects total rest (S query_idx) all_projects
      | _ :: _ =>
          all_projects <- links_loop max_projects (List.length project_links)
                            project_links 1 all_projects ;;
          if cap_reached max_projects all_projects then ret all_projects
          else queries_loop max_projects total rest (S query_idx) all_projects
      end
  end.

(** [pd.DataFrame(records).columns] for a list of dicts: the keys of the
    records, each where it is first met. *)
Definition add_column (columns : list string) (k : string) : list string :=
  if mem k columns then columns else (columns ++ [k])%list.

Definition DataFrame_columns (records : list dict) : list string :=
  fold_left (fun columns r => fold_left add_column (keys r) columns)
    records [].

(** The cells of the frame, row by row; [None] where a record has no
    value for a column. *)
Definition DataFrame_rows (columns : list string) (records : list dict)
  : list (list (option json)) :=
  map (fun r => map (fun c => dict_get c r) columns) records.

Definition csv_path : string := "phd_listings.csv".

(** Step 5 of [main_agent], lines 301-309. *)
Definition save_results `{Externals} (all_projects : list dict) : M unit :=
  log INFO MsgBanner ;;
  match all_projects with
  | _ :: _ =>
      let columns := DataFrame_columns all_projects in
      emit (ToCsv csv_path columns (DataFrame_rows columns all_projects)) ;;
      log INFO (MsgSaved (List.length all_projects)) ;;
      log INFO (MsgColumns (join ", " columns))
  | [] => log WARNING MsgNothing
  end ;;
  log INFO MsgBanner.

Definition is_JSONDecodeError (e : exn) : bool :=
  match e with JSONDecodeError => true | _ => false end.

(** [main_agent(user_prompt, max_projects)], lines 243-311.  The result
    is [None] for the bare [return] of line 259. *)
Definition main_agent `{Externals} (user_prompt : string)
  (max_projects : option Z) : M (option (list dict)) :=
  log INFO MsgBanner ;;
  log INFO MsgStarting ;;
  log INFO (MsgUserRequest user_prompt) ;;
  log INFO MsgBanner ;;
  generated <- try_except
                 (search_queries <- generate_search_queries user_prompt ;;
                  ret (Some search_queries))
                 is_JSONDecodeError
                 (log ERROR MsgQueriesUnparsed ;; ret None) ;;
  match generated with
  | None => ret None
  | Some search_queries =>
      match py_iter search_queries with
      | Some queries =>
          all_projects <- queries_loop max_projects (List.length queries)
                            queries 1 [] ;;
          save_results all_projects ;;
          ret (Some all_projects)
      | None => raise TypeError
      end
  end.

(** What a run leaves behind. *)
Definition run `{Externals} {A : Type} (m : M A) (w : World)
  : outcome A * World * list event := m w.

Definition result_of {W A : Type} (r : outcome A * W * list event)
  : outcome A := fst (fst r).

Definition events_of {W A : Type} (r : outcome A * W * list event)
  : list event := snd r.

Definition world_of {W A : Type} (r : outcome A * W * list event)
  : W := snd (fst r).

(** ** Reading the events of a run *)

Definition is_accept (e : event) : bool :=
  match e with
  | Log INFO (MsgAccepted _) => true
  | _ => false
  end.

(** A page fetch, a model call, or the log line with which the work
    on a query or on a link begins. *)
Definition is_work (e : event) : bool :=
  match e with
  | Get _ => true
  | Completion _ _ => true
  | Log _ (MsgQuery _ _ _) => true
  | Log _ (MsgProject _ _ _) => true
  | _ => false
  end.

Definition is_completion (e : event) : bool :=
  match e with
  | Completion _ _ => true
  | _ => false
  end.

Definition is_csv_write (e : event) : bool :=
  match e with
  | ToCsv _ _ _ => true
  | _ => false
  end.

(** The number of records accepted in a stretch of events. *)
Definition accepted (tr : list event) : nat :=
  List.length (filter is_accept tr).

Definition csv_writes (tr : list event) : list event :=
  filter is_csv_write tr.

(** From [n] records on, no work follows once [c] records are there:
    the check that goes along the events. *)
Fixpoint capped (c n : nat) (tr : list event) : bool :=
  match tr with
  | [] => true
  | e :: tr' =>
      (if (c <=? n)%nat then negb (is_work e) else true)
      && capped c (if is_accept e then S n else n) tr'
  end.

(** A value which is true in Python and is no object. *)
Definition wrong_shape (v : json) : bool := truthy v && negb (is_object v).

(** A model answer that decodes to such a value. *)
Definition is_bad_answer `{Externals} (response : string) : bool :=
  match json_loads response with
  | Some v => wrong_shape v
  | None => false
  end.

Definition is_bad_completion `{Externals} (e : event) : bool :=
  match e with
  | Completion _ response => is_bad_answer response
  | _ => false
  end.

(** The record names its source: it has a [url] with a string. *)
Definition has_url (d : dict) : bool :=
  match dict_get "url" d with
  | Some (JStr _) => true
  | _ => false
  end.

(** Neither the acceptance of a record nor a write of the CSV file. *)
Definition calm (e : event) : bool :=
  negb (is_accept e) && negb (is_csv_write e).

(** Calm, and no model answer that is true and no object. *)
Definition harmless `{Externals} (e : event) : bool :=
  calm e && negb (is_bad_completion e).

(** The courses the loop over the links can take, from the records
    gathered so far to its result and the events it issues: the links
    run out; the cap is reached; a link is passed over; a record is
    accepted; the source URL cannot be attached. *)
Inductive links_run `{Externals} (max_projects : option Z)
  : list dict -> outcome (list dict) -> list event -> Prop :=
| links_done (all_projects : list dict) :
    links_run max_projects all_projects (Ret all_projects) []
| links_stop (all_projects : list dict) :
    cap_reached max_projects all_projects = true ->
    links_run max_projects all_projects (Ret all_projects)
      [Log INFO (MsgReachedMax max_projects)]
| links_skip (all_projects : list dict) (ev : list event)
    (r : outcome (list dict)) (ev' : list event) :
    cap_reached max_projects all_projects = false ->
    forallb harmless ev = true ->
    links_run max_projects all_projects r ev' ->
    links_run max_projects all_projects r (ev ++ ev')
| links_accept (all_projects : list dict) (ev : list event)
    (d : dict) (url : string)
    (r : outcome (list dict)) (ev' : list event) :
    cap_reached max_projects all_projects = false ->
    forallb harmless ev = true ->
    links_run max_projects
      (all_projects ++ [dict_set "url" (JStr url) d]) r ev' ->
    links_run max_projects all_projects r
      (ev ++ Log INFO (MsgAccepted (title_of (dict_set "url" (JStr url) d)))
          :: ev')
| links_crash (all_projects : list dict) (ev : list event) :
    cap_reached max_projects all_projects = false ->
    forallb calm ev = true ->
    existsb is_bad_completion ev = true ->
    links_run max_projects all_projects (Raise TypeError) ev.

(** The courses the loop over the queries can take: the queries run
    out; a query gives no link; the links of a query are worked on and
    the loop goes on, or stops at the cap, or the work on them fails. *)
Inductive queries_run `{Externals} (max_projects : option Z)
  : list dict -> outcome (list dict) -> list event -> Prop :=
| queries_done (all_projects : list dict) :
    queries_run max_projects all_projects (Ret all_projects) []
| queries_no_links (all_projects : list dict) (ev : list event)
    (r : outcome (list dict)) (ev' : list event) :
    forallb harmless ev = true ->
    queries_run max_projects all_projects r ev' ->
    queries_run max_projects all_projects r (ev ++ ev')
| queries_on (all_projects : list dict) (ev : list event)
    (all_projects' : list dict) (ev1 : list event)
    (r : outcome (list dict)) (ev2 : list event) :
    forallb harmless ev = true ->
    links_run max_projects all_projects (Ret all_projects') ev1 ->
    cap_reached max_projects all_projects' = false ->
    queries_run max_projects all_projects' r ev2 ->
    queries_run max_projects all_projects r (ev ++ ev1 ++ ev2)
| queries_stop (all_projects : list dict) (ev : list event)
    (all_projects' : list dict) (ev1 : list event) :
    forallb harmless ev = true ->
    links_run max_projects all_projects (Ret all_projects') ev1 ->
    cap_reached max_projects all_projects' = true ->
    queries_run max_projects all_projects (Ret all_projects') (ev ++ ev1)
| queries_crash (all_projects : list dict) (ev : list event)
    (e : exn) (ev1 : list event) :
    forallb harmless ev = true ->
    links_run max_projects all_projects (Raise e) ev1 ->
    queries_run max_projects all_projects (Raise e) (ev ++ ev1).

(** What the result and the events of a loop have to do with the
    records it started from: no CSV write; on a normal end no bad
    answer, and as many new records as acceptances, each with its
    source; otherwise a [TypeError] after a bad answer. *)
Definition keeps `{Externals} (all_projects : list dict) (r : outcome (list dict))
  (ev : list event) : Prop :=
  csv_writes ev = []
  /\ (forall res, r = Ret res ->
        existsb is_bad_completion ev = false
        /\ exists new, res = (all_projects ++ new)%list
                       /\ List.length new = accepted ev
                       /\ forallb has_url new = true)
  /\ (forall e, r = Raise e ->
        e = TypeError /\ existsb is_bad_completion ev = true).

(** The events of [main_agent] up to the decoding of the queries. *)
Definition opening (user_prompt response_text : string) : list event :=
  [ Log INFO MsgBanner; Log INFO MsgStarting;
    Log INFO (MsgUserRequest user_prompt); Log INFO MsgBanner;
    Log INFO (MsgGenerating user_prompt);
    Completion (query_prompt user_prompt) response_text;
    Stdout response_text ].

(** The events of step 5. *)
Definition closing (all_projects : list dict) : list event :=
  match all_projects with
  | [] => [Log INFO MsgBanner; Log WARNING MsgNothing; Log INFO MsgBanner]
  | _ :: _ =>
      let columns := DataFrame_columns all_projects in
      [ Log INFO MsgBanner;
        ToCsv csv_path columns (DataFrame_rows columns all_projects);
        Log INFO (MsgSaved (List.length all_projects));
        Log INFO (MsgColumns (join ", " columns));
        Log INFO MsgBanner ]
  end.

(** ** The words of the specification, to compare the program with *)

(** A list without its repeats, each element where it is first seen:
    the head stays, and is taken out of what the rest gives. *)
Fixpoint dedup_first (l : list string) : list string :=
  match l with
  | [] => []
  | x :: l' => x :: filter (fun y => negb (y =? x)) (dedup_first l')
  end.

(** The targets of the hyperlink elements of a page, in document
    order. *)
Fixpoint hyperlink_targets (n : node) : list string :=
  match n with
  | Elem t attrs cs =>
      ((if t =? "a" then
          match get_attr "href" attrs with
          | Some href => [href]
          | None => []
          end
        else []) ++ flat_map hyperlink_targets cs)%list
  | _ => []
  end.

(** [config.get(k)] on a dict. *)
Definition setting (d : dict) (k : string) : json :=
  match dict_get k d with
  | Some v => v
  | None => JNull
  end.

(** The target of one hyperlink element. *)
Definition href_of (a : node) : list string :=
  match a with
  | Elem _ attrs _ =>
      match get_attr "href" attrs with
      | Some href => [href]
      | None => []
      end
  | _ => []
  end.

(** A required setting is absent, or empty: its value is one Python
    takes for false (the empty string; also [null], [false], zero, an
    empty list or object). *)
Definition absent_or_empty (config : dict) (field : string) : bool :=
  match dict_get field config with
  | None => true
  | Some v => negb (truthy v)
  end.

(** A target is put behind the origin of the site unless it starts
    with [http]. *)
Definition qualify (href : string) : string :=
  if startswith "http" href then href else base_origin ++ href.

(** The first four characters are [h], [t], [t], [p]. *)
Definition begins_http (href : string) : bool :=
  match href with
  | String a (String b (String c (String d _))) =>
      ((a =? "h") && (b =? "t") && (c =? "t") && (d =? "p"))%char
  | _ => false
  end.

(** The amended wording: a target that begins with [http] stays as it
    is, any other is put behind the origin of the site. *)
Definition origin_unless_http (href : string) : string :=
  if begins_http href then href else base_origin ++ href.

Definition is_letter (c : ascii) : bool :=
  let n := nat_of_ascii c in
  (((65 <=? n) && (n <=? 90)) || ((97 <=? n) && (n <=? 122)))%nat.

Definition is_scheme_char (c : ascii) : bool :=
  let n := nat_of_ascii c in
  (is_letter c || ((48 <=? n) && (n <=? 57))
   || (c =? "+")%char || (c =? "-")%char || (c =? ".")%char)%nat.

(** Scheme characters up to a colon. *)
Fixpoint scheme_ends (s : string) : bool :=
  match s with
  | EmptyString => false
  | String c s' =>
      if (c =? ":")%char then true
      else if is_scheme_char c then scheme_ends s' else false
  end.

(** The target names its scheme ([https:], [HTTP:], [ftp:],
    [mailto:]): a letter, scheme characters, a colon. *)
Definition has_scheme (href : string) : bool :=
  match href with
  | EmptyString => false
  | String c s' => is_letter c && scheme_ends s'
  end.

(** A relative target is one that names no scheme. *)
Definition is_relative (href : string) : bool := negb (has_scheme href).

(** The wording of the claim: a relative target is put behind the
    origin of the site, any other stays as it is. *)
Definition origin_if_relative (href : string) : string :=
  if is_relative href then base_origin ++ href else href.

(** The texts of a page that lie outside every noise element. *)
Fixpoint visible_strings (n : node) : list string :=
  match n with
  | Text s => let s' := strip s in if s' =? "" then [] else [s']
  | Comment _ => []
  | Elem t _ cs =>
      if mem t noise_tags then [] else flat_map visible_strings cs
  end.

(** The text of each paragraph, heading and list item outside every
    noise element, in document order. *)
Fixpoint visible_fragments (n : node) : list string :=
  match n with
  | Elem t _ cs =>
      if mem t noise_tags then []
      else
        ((if mem t content_tags
          then [join "" (flat_map visible_strings cs)] else [])
         ++ flat_map visible_fragments cs)%list
  | _ => []
  end.

Definition min_fragment_length : nat := 10.



(** A paragraph, a heading of level 1 to 4, or a list item. *)
Definition is_content (t : string) (_ : list (string * string)) : bool :=
  mem t content_tags.

(** A text longer than the minimum. *)
Definition is_long (text : string) : bool :=
  (min_fragment_length <? length text)%nat.

(** A response in a fenced code block. *)
Definition fenced (r : string) : string := fence_open ++ r ++ fence_close.

(** The white space JSON allows around a value. *)
Definition is_json_ws (c : ascii) : bool :=
  ((c =? " ") || (c =? "009") || (c =? "010") || (c =? "013"))%char.

Fixpoint all_json_ws (s : string) : bool :=
  match s with
  | EmptyString => true
  | String c s' => is_json_ws c && all_json_ws s'
  end.

(** The shape of the text of a JSON array: brackets, with white space
    around at most. *)
Definition array_text (s : string) : Prop :=
  exists before body after : string,
    s = before ++ "[" ++ body ++ "]" ++ after
    /\ all_json_ws before = true /\ all_json_ws after = true.

(** [s] is [r] with some text before it: what a decoder has read. *)
Definition consumes (s r : string) : Prop := exists pre, s = pre ++ r.

(** [s] is [r] with a text before it that ends with a closing bracket. *)
Definition closes (s r : string) : Prop := exists body, s = body ++ "]" ++ r.

(** ** A JSON decoder and scripted worlds, to run the program on *)

(** A decoder for the JSON texts used below: [null], [true], [false],
    integers, strings with the one-letter escapes, arrays and objects.
    It refuses what it does not cover (fractions, exponents, [\u]
    escapes) and decodes the rest as [json.loads] does; in an object
    with a repeated key the last value stands, at the first place. *)
Module MiniJson.

Definition is_digit (c : ascii) : bool :=
  let n := nat_of_ascii c in ((48 <=? n) && (n <=? 57))%nat.

Fixpoint skip_ws (s : string) : string :=
  match s with
  | String c s' => if is_json_ws c then skip_ws s' else s
  | EmptyString => s
  end.

Fixpoint digits (s : string) (acc : Z) : Z * string :=
  match s with
  | String c s' =>
      if is_digit c
      then digits s' (10 * acc + Z.of_nat (nat_of_ascii c - 48))%Z
      else (acc, s)
  | EmptyString => (acc, s)
  end.

Definition starts_fraction (s : string) : bool :=
  match s with
  | String c _ => ((c =? ".") || (c =? "e") || (c =? "E"))%char
  | EmptyString => false
  end.

(** A zero, or digits that begin with none. *)
Definition natural (s : string) : option (Z * string) :=
  match s with
  | String c s' =>
      if (c =? "0")%char then Some (0%Z, s')
      else if is_digit c then Some (digits s 0%Z)
      else None
  | EmptyString => None
  end.

Definition number (s : string) : option (json * string) :=
  let signed :=
    match s with
    | String c s' =>
        if (c =? "-")%char then
          match natural s' with
          | Some (z, r) => Some ((- z)%Z, r)
          | None => None
          end
        else natural s
    | EmptyString => None
    end in
  match signed with
  | Some (z, r) => if starts_fraction r then None else Some (JInt z, r)
  | None => None
  end.

Definition unescape (c : ascii) : option ascii :=
  (if c =? "034" then Some "034"
   else if c =? "092" then Some "092"
   else if c =? "/" then Some "/"
   else if c =? "b" then Some "008"
   else if c =? "f" then Some "012"
   else if c =? "n" then Some "010"
   else if c =? "r" then Some "013"
   else if c =? "t" then Some "009"
   else None)%char.

Definition cons_char (c : ascii) (r : option (string * string))
  : option (string * string) :=
  match r with
  | Some (x, rest) => Some (String c x, rest)
  | None => None
  end.

(** The rest of a string after its opening quote: what it holds, and
    the text behind its closing quote. *)
Fixpoint string_body (s : string) : option (string * string) :=
  match s with
  | EmptyString => None
  | String c s' =>
      if (c =? "034")%char then Some (EmptyString, s')
      else if (c =? "092")%char then
        match s' with
        | String e s'' =>
            match unescape e with
            | Some c' => cons_char c' (string_body s'')
            | None => None
            end
        | EmptyString => None
        end
      else if (nat_of_ascii c <? 32)%nat then None
      else cons_char c (string_body s')
  end.

Fixpoint value (fuel : nat) (s : string) {struct fuel}
  : option (json * string) :=
  match fuel with
  | O => None
  | S fuel' =>
      match s with
      | EmptyString => None
      | String c rest =>
          if (c =? "[")%char then
            match skip_ws rest with
            | String c' r =>
                if (c' =? "]")%char then Some (JArr [], r)
                else elements fuel' (skip_ws rest) []
            | EmptyString => None
            end
          else if (c =? "{")%char then
            match skip_ws rest with
            | String c' r =>
                if (c' =? "}")%char then Some (JObj [], r)
                else members fuel' (skip_ws rest) []
            | EmptyString => None
            end
          else if (c =? "034")%char then
            match string_body rest with
            | Some (x, r) => Some (JStr x, r)
            | None => None
            end
          else if prefix "null" s then Some (JNull, drop 4 s)
          else if prefix "true" s then Some (JBool true, drop 4 s)
          else if prefix "false" s then Some (JBool false, drop 5 s)
          else number s
      end
  end
with elements (fuel : nat) (s : string) (acc : list json) {struct fuel}
  : option (json * string) :=
  match fuel with
  | O => None
  | S fuel' =>
      match value fuel' s with
      | Some (v, rest) =>
          match skip_ws rest with
          | String c r =>
              if (c =? "]")%char then Some (JArr (acc ++ [v]), r)
              else if (c =? ",")%char
              then elements fuel' (skip_ws r) (acc ++ [v])
              else None
          | EmptyString => None
          end
      | None => None
      end
  end
with members (fuel : nat) (s : string) (acc : dict) {struct fuel}
  : option (json * string) :=
  match fuel with
  | O => None
  | S fuel' =>
      match s with
      | String q rest =>
          if (q =? "034")%char then
            match string_body rest with
            | Some (k, r1) =>
                match skip_ws r1 with
                | String c1 r2 =>
                    if (c1 =? ":")%char then
                      match value fuel' (skip_ws r2) with
                      | Some (v, r3) =>
                          match skip_ws r3 with
                          | String c2 r4 =>
                              if (c2 =? "}")%char
                              then Some (JObj (dict_set k v acc), r4)
                              else if (c2 =? ",")%char
                              then members fuel' (skip_ws r4) (dict_set k v acc)
                              else None
                          | EmptyString => None
                          end
                      | None => None
                      end
                    else None
                | EmptyString => None
                end
            | None => None
            end
          else None
      | EmptyString => None
      end
  end.

(** [json.loads(s)] *)
Definition loads (s : string) : option json :=
  match value (2 * length s + 2) (skip_ws s) with
  | Some (v, r) => if skip_ws r =? "" then Some v else None
  | None => None
  end.

End MiniJson.

(** What each of the three decoders has read when it is done. *)
Definition reads_well (fuel : nat) : Prop :=
  (forall s v r, MiniJson.value fuel s = Some (v, r) ->
     consumes s r
     /\ (forall l, v = JArr l -> exists body, s = "[" ++ body ++ "]" ++ r))
  /\ (forall s acc v r, MiniJson.elements fuel s acc = Some (v, r) -> closes s r)
  /\ (forall s acc v r, MiniJson.members fuel s acc = Some (v, r) ->
        consumes s r /\ exists d, v = JObj d).

(** A world that answers from tables.  A page is fetched by its URL and
    parsed by its text; the model answers the query prompt with one
    text, and an extraction prompt with the answer of the first entry
    whose mark stands in the prompt ([null] when there is none).  The
    state of the world counts the calls made. *)
Record scenario : Type := {
  query_answer : string;
  pages : list (string * string);
  soups : list (string * list node);
  answers : list (string * string)
}.

Fixpoint lookup {A : Type} (k : string) (table : list (string * A))
  : option A :=
  match table with
  | [] => None
  | (k', a) :: rest => if k' =? k then Some a else lookup k rest
  end.

Fixpoint answer_for (content : string) (table : list (string * string))
  : string :=
  match table with
  | [] => "null"
  | (mark, answer) :: rest =>
      if contains mark content then answer else answer_for content rest
  end.

Definition scripted (sc : scenario) : Externals := {|
  World := nat;
  requests_get url _ _ n :=
    (match url with
     | JStr u => lookup u (pages sc)
     | _ => None
     end, S n);
  completions_create content n :=
    (if startswith "You are a PhD search query generator" content
     then query_answer sc
     else answer_for content (answers sc), S n);
  BeautifulSoup text :=
    match lookup text (soups sc) with
    | Some soup => soup
    | None => []
    end;
  json_loads := MiniJson.loads
|}.

Definition anchor (href label : string) : node :=
  Elem "a" [("href", href)] [Text label].

Definition paragraph (text : string) : node := Elem "p" [] [Text text].

Definition json_pair (k v : string) : string := quoted k ++ ": " ++ quoted v.

(** One query; its results page links two projects; the first project
    page speaks of robots, the second of proteins. *)
Definition results_page : list node :=
  [ Elem "div" []
      [ anchor "/phds/project/robots" "Robots";
        anchor "/about" "About";
        anchor "/phds/project/proteins" "Proteins";
        anchor "/phds/project/robots" "Robots again" ] ].

Definition robots_page : list node :=
  [ Elem "nav" [] [ paragraph "Home and other projects and more links" ];
    Elem "h1" [] [ Text "Robots" ];
    paragraph "A funded project on robots that learn to walk on uneven ground." ].

Definition proteins_page : list node :=
  [ paragraph "A funded project on proteins and how they fold in living cells." ].

Definition two_projects (robots_answer proteins_answer : string) : scenario := {|
  query_answer := "[" ++ quoted "https://www.findaphd.com/phds/?Keywords=ai" ++ "]";
  pages :=
    [ ("https://www.findaphd.com/phds/?Keywords=ai", "results");
      ("https://www.findaphd.com/phds/project/robots", "robots");
      ("https://www.findaphd.com/phds/project/proteins", "proteins") ];
  soups :=
    [ ("results", results_page);
      ("robots", robots_page);
      ("proteins", proteins_page) ];
  answers :=
    [ ("robots that learn", robots_answer);
      ("proteins and how", proteins_answer) ]
|}.

Definition robots_record : string :=
  "{" ++ json_pair "title" "Walking robots" ++ "}".

Definition proteins_record : string :=
  "{" ++ json_pair "title" "Folding proteins" ++ ", "
      ++ json_pair "deadline" "1 May" ++ "}".

(** Both answers are objects; the second has a key the first lacks. *)
Definition uneven_records : scenario :=
  two_projects robots_record proteins_record.

(** The first answer is an empty array, the second an object. *)
Definition empty_array_answer : scenario :=
  two_projects "[]" proteins_record.

(** The first answer is an object, the second an array with an
    element. *)
Definition array_answer : scenario :=
  two_projects robots_record ("[" ++ quoted "Folding proteins" ++ "]").

(** The model does not answer the query prompt with JSON. *)
Definition no_queries : scenario := {|
  query_answer := "Sorry, I cannot help with that.";
  pages := [];
  soups := [];
  answers := []
|}.

(** [main_agent("ai", max_projects)] in a scripted world that has seen
    no call yet. *)
Definition sample_run (sc : scenario) (max_projects : option Z)
  : outcome (option (list dict)) * nat * list event :=
  @run (scripted sc) _ (@main_agent (scripted sc) "ai" max_projects) 0.

(** A results page with an absolute target whose scheme is in upper
    case and a relative target that begins with [http]. *)
Definition mixed_targets_page : list node :=
  [ anchor "HTTP://x.org/phds/3" "Three";
    anchor "httpdocs/phds/5" "Five" ].

Definition mixed_targets : scenario := {|
  query_answer := "[]";
  pages := [("https://www.findaphd.com/phds/?Keywords=mixed", "mixed")];
  soups := [("mixed", mixed_targets_page)];
  answers := []
|}.

(** A settings file without a model name and with an empty endpoint. *)
Definition settings_text : string :=
  "{" ++ json_pair "api_key" "sk-1" ++ ", " ++ json_pair "api_base" "" ++ "}".

(** ** More ways to read the events of a run *)

Definition is_get (e : event) : bool :=
  match e with
  | Get _ => true
  | _ => false
  end.

Definition is_sleep (e : event) : bool :=
  match e with
  | Sleep _ => true
  | _ => false
  end.

(** An event of the work on a project link: a line of the loop over the
    links, of the text extractor or of the field extractor. *)
Definition touches_project (e : event) : bool :=
  match e with
  | Log _ (MsgProject _ _ _) => true
  | Log _ (MsgExtractingText _) => true
  | Log _ (MsgExtractedText _) => true
  | Log _ MsgExtractingInfo => true
  | Log _ MsgBlobTooShort => true
  | Log _ (MsgExtractionResponse _) => true
  | Log _ MsgExtractionUnparsed => true
  | Log _ (MsgNoText _) => true
  | Log _ (MsgAccepted _) => true
  | Log _ (MsgFailed _) => true
  | _ => false
  end.

(** An event of the work on a query alone: no model call, nothing on a
    project link, no write of the CSV file. *)
Definition search_only (e : event) : bool :=
  negb (is_completion e) && negb (touches_project e)
  && negb (is_csv_write e).

(** The [url] of the record is that of a page the events fetch. *)
Definition names_fetched_page (ev : list event) (d : dict) : Prop :=
  exists url, dict_get "url" d = Some (JStr url) /\ In (Get (JStr url)) ev.

(** None of the required names is [in] the decoded settings. *)
Definition holds_no_name (config : json) : bool :=
  forallb (fun field =>
             match py_contains field config with
             | Some false => true
             | _ => false
             end) required_fields.

(** A settings file with all three values. *)
Definition full_settings_text : string :=
  "{" ++ json_pair "api_key" "sk-1" ++ ", "
      ++ json_pair "api_base" "https://api.example.org/v1" ++ ", "
      ++ json_pair "model_name" "m-1" ++ "}".

(** The model answers the query prompt with a number. *)
Definition number_answer : scenario := {|
  query_answer := "42";
  pages := [];
  soups := [];
  answers := []
|}.

(** * Properties *)

(** ** Strings *)

Section StringFacts.

Lemma append_nil_r (s : string) : s ++ "" = s.
Proof. induction s as [|c s IH]; simpl; [reflexivity | now rewrite IH]. Qed.

Lemma append_assoc (a b c : string) : (a ++ b) ++ c = a ++ b ++ c.
Proof. induction a as [|x a IH]; simpl; [reflexivity | now rewrite IH]. Qed.

Lemma length_append (a b : string) : length (a ++ b) = length a + length b.
Proof. induction a as [|x a IH]; simpl; [reflexivity | now rewrite IH]. Qed.

Lemma prefix_append (p s : string) : prefix p (p ++ s) = true.
Proof.
  induction p as [|c p IH]; simpl.
  - now destruct s.
  - destruct (ascii_dec c c) as [_|N]; [exact IH | now elim N].
Qed.

Lemma drop_append (p s : string) : drop (length p) (p ++ s) = s.
Proof. induction p as [|c p IH]; simpl; [reflexivity | exact IH]. Qed.

Lemma take_append (a x : string) : take (length a) (a ++ x) = a.
Proof. induction a as [|c a IH]; simpl; [reflexivity | now rewrite IH]. Qed.

Lemma endswith_append (a x : string) : endswith x (a ++ x) = true.
Proof.
  induction a as [|c a IH]; simpl.
  - destruct x; cbn [endswith append]; now rewrite String.eqb_refl.
  - rewrite IH. apply orb_true_r.
Qed.

Lemma endswith_split (x s : string) :
  endswith x s = true -> exists a, s = a ++ x.
Proof.
  induction s as [|c s IH]; cbn [endswith]; intros E.
  - apply orb_true_iff in E as [E|E]; [|discriminate].
    apply String.eqb_eq in E. subst x. now exists "".
  - apply orb_true_iff in E as [E|E].
    + apply String.eqb_eq in E. subst x. now exists "".
    + destruct (IH E) as [a ->]. now exists (String c a).
Qed.

Lemma last_char_append (a : string) (c : ascii) (b : string) :
  last_char (a ++ String c b) = last_char (String c b).
Proof.
  induction a as [|x a IH]; [reflexivity|].
  change (String x a ++ String c b) with (String x (a ++ String c b)).
  cbn [last_char]. rewrite IH. simpl. now destruct (last_char b).
Qed.

Lemma prefix_first_char (p s : string) (c : ascii) :
  first_char p = Some c -> first_char s <> Some c -> prefix p s = false.
Proof.
  destruct p as [|x p]; simpl; [discriminate|].
  intros [= ->]. destruct s as [|y s]; simpl; [reflexivity|].
  intros N. destruct (ascii_dec c y) as [->|_]; [now elim N | reflexivity].
Qed.

Lemma endswith_last_char (x s : string) (c : ascii) :
  last_char x = Some c -> last_char s <> Some c -> endswith x s = false.
Proof.
  intros Hx Hs. destruct (endswith x s) eqn:E; [|reflexivity].
  apply endswith_split in E as [a ->]. elim Hs.
  destruct x as [|y x]; [discriminate|].
  now rewrite last_char_append.
Qed.

Lemma last_char_ws_tail (after : string) (c : ascii) :
  all_json_ws after = true ->
  exists d, last_char (String c after) = Some d
            /\ (d = c \/ is_json_ws d = true).
Proof.
  revert c. induction after as [|x after IH]; intros c W.
  - exists c. simpl. auto.
  - simpl in W. apply andb_true_iff in W as [Wx W].
    destruct (IH x W) as (d & Hd & Hc).
    exists d. cbn [last_char] in *. rewrite Hd. split; [reflexivity|].
    right. destruct Hc as [->|Hc]; assumption.
Qed.

Lemma first_char_ws_head (before : string) (c : ascii) (rest : string) :
  all_json_ws before = true ->
  exists d, first_char (before ++ String c rest) = Some d
            /\ (d = c \/ is_json_ws d = true).
Proof.
  destruct before as [|x before]; simpl; intros W.
  - exists c. auto.
  - apply andb_true_iff in W as [Wx _]. exists x. auto.
Qed.

(** The text of an array neither starts nor ends with a fence. *)
Lemma array_text_unfenced (s : string) :
  array_text s ->
  startswith fence_open s = false /\ endswith fence_close s = false.
Proof.
  intros (before & body & after & -> & Wb & Wa). split.
  - destruct (first_char_ws_head before "[" (body ++ "]" ++ after) Wb)
      as (d & Hd & Hc).
    apply prefix_first_char with (c := "`"%char); [reflexivity|].
    change ("[" ++ body ++ "]" ++ after)
      with (String "[" (body ++ "]" ++ after)).
    rewrite Hd. intros [= ->]. destruct Hc as [?|?]; discriminate.
  - destruct (last_char_ws_tail after "]" Wa) as (d & Hd & Hc).
    apply endswith_last_char with (c := "`"%char); [reflexivity|].
    replace (before ++ "[" ++ body ++ "]" ++ after)
      with ((before ++ "[" ++ body) ++ String "]" after)
      by (now rewrite !append_assoc).
    rewrite last_char_append, Hd.
    intros [= ->]. destruct Hc as [?|?]; discriminate.
Qed.

Lemma strip_fences_fenced (r : string) : strip_fences (fenced r) = r.
Proof.
  unfold strip_fences, fenced, removeprefix, removesuffix, startswith.
  rewrite prefix_append, drop_append, endswith_append. simpl negb. simpl andb.
  rewrite length_append, Nat.add_sub. apply take_append.
Qed.

Lemma strip_fences_unfenced (r : string) :
  startswith fence_open r = false -> endswith fence_close r = false ->
  strip_fences r = r.
Proof.
  intros P S. unfold strip_fences, removeprefix, removesuffix.
  rewrite P, S. now rewrite andb_false_r.
Qed.

End StringFacts.

(** ** The decoder reads arrays between brackets *)

Section MiniJsonFacts.

Import MiniJson.

Local Arguments prefix : simpl never.
Local Arguments drop : simpl never.
Local Arguments number : simpl never.
Local Arguments string_body : simpl never.
Local Arguments skip_ws : simpl never.

Lemma consumes_refl (s : string) : consumes s s.
Proof. now exists "". Qed.

Lemma consumes_char (c : ascii) (s r : string) :
  consumes s r -> consumes (String c s) r.
Proof. intros [pre ->]. now exists (String c pre). Qed.

Lemma consumes_trans (s t r : string) :
  consumes s t -> consumes t r -> consumes s r.
Proof.
  intros [p ->] [q ->]. exists (p ++ q). now rewrite append_assoc.
Qed.

Lemma consumes_closes (s t r : string) :
  consumes s t -> closes t r -> closes s r.
Proof.
  intros [p ->] [q ->]. exists (p ++ q). now rewrite append_assoc.
Qed.

Lemma closes_here (r : string) : closes (String "]" r) r.
Proof. now exists "". Qed.

Lemma skip_ws_split (s : string) :
  exists a, s = a ++ skip_ws s /\ all_json_ws a = true.
Proof.
  induction s as [|c s (a & E & W)].
  - now exists "".
  - unfold skip_ws; fold skip_ws. destruct (is_json_ws c) eqn:Ec.
    + exists (String c a). simpl. rewrite Ec, W, <- E. auto.
    + now exists "".
Qed.

Lemma skip_ws_consumes (s : string) : consumes s (skip_ws s).
Proof. destruct (skip_ws_split s) as (a & E & _). now exists a. Qed.

Lemma skip_ws_nothing_left (s : string) :
  skip_ws s = "" -> all_json_ws s = true.
Proof.
  induction s as [|c s IH]; [reflexivity|].
  unfold skip_ws; fold skip_ws. simpl.
  destruct (is_json_ws c); [exact IH | discriminate].
Qed.

Lemma prefix_drop (p s : string) :
  prefix p s = true -> s = p ++ drop (length p) s.
Proof.
  revert s. induction p as [|c p IH]; intros s; [reflexivity|].
  destruct s as [|d s]; [discriminate|].
  unfold prefix; fold prefix. destruct (ascii_dec c d) as [->|_]; [|discriminate].
  intros E. simpl. unfold drop; fold drop. now rewrite <- IH.
Qed.

Lemma prefix_consumes (p s : string) :
  prefix p s = true -> consumes s (drop (length p) s).
Proof. intros E. exists p. now apply prefix_drop. Qed.

Lemma digits_consumes (s : string) (acc z : Z) (r : string) :
  digits s acc = (z, r) -> consumes s r.
Proof.
  revert acc. induction s as [|c s IH]; simpl; intros acc E.
  - injection E as _ <-. apply consumes_refl.
  - destruct (is_digit c).
    + apply consumes_char. eapply IH, E.
    + injection E as _ <-. apply consumes_refl.
Qed.

Lemma natural_consumes (s : string) (z : Z) (r : string) :
  natural s = Some (z, r) -> consumes s r.
Proof.
  unfold natural. destruct s as [|c s]; [discriminate|].
  destruct (c =? "0")%char.
  - intros [= _ <-]. apply consumes_char, consumes_refl.
  - destruct (is_digit c); [|discriminate].
    intros E. apply digits_consumes with (acc := 0%Z) (z := z). congruence.
Qed.

Lemma number_consumes (s : string) (v : json) (r : string) :
  number s = Some (v, r) -> consumes s r /\ exists z, v = JInt z.
Proof.
  unfold number. destruct s as [|c s]; [discriminate|].
  destruct (c =? "-")%char.
  - destruct (natural s) as [[z t]|] eqn:E; [|discriminate].
    destruct (starts_fraction t); [discriminate|].
    intros [= <- <-]. split; [|eauto].
    apply consumes_char. eapply natural_consumes, E.
  - destruct (natural (String c s)) as [[z t]|] eqn:E; [|discriminate].
    destruct (starts_fraction t); [discriminate|].
    intros [= <- <-]. split; [|eauto]. eapply natural_consumes, E.
Qed.

Lemma string_body_consumes (s x r : string) :
  string_body s = Some (x, r) -> consumes s r.
Proof.
  remember (length s) as n eqn:L. revert s x r L.
  induction n as [n IH] using lt_wf_ind. intros s x r L.
  destruct s as [|c s]; [discriminate|].
  unfold string_body; fold string_body.
  destruct (c =? "034")%char.
  - intros [= _ <-]. apply consumes_char, consumes_refl.
  - destruct (c =? "092")%char.
    + destruct s as [|e s]; [discriminate|].
      destruct (unescape e); [|discriminate].
      destruct (string_body s) as [[y t]|] eqn:E; [|discriminate].
      simpl. intros [= _ <-]. do 2 apply consumes_char.
      eapply (IH (length s)); [subst n; simpl; lia | reflexivity | exact E].
    + destruct (nat_of_ascii c <? 32)%nat; [discriminate|].
      destruct (string_body s) as [[y t]|] eqn:E; [|discriminate].
      simpl. intros [= _ <-]. apply consumes_char.
      eapply (IH (length s)); [subst n; simpl; lia | reflexivity | exact E].
Qed.

Lemma decoders_read_well (fuel : nat) : reads_well fuel.
Proof.
  induction fuel as [|fuel (IHv & IHe & IHm)];
    [repeat split; intros; discriminate|].
  repeat apply conj.
  - (* value *)
    intros s v r. simpl. destruct s as [|c rest]; [discriminate|].
    destruct (c =? "[")%char eqn:Eb.
    { apply Ascii.eqb_eq in Eb. subst c.
      destruct (skip_ws_split rest) as (a & Ea & _).
      destruct (skip_ws rest) as [|c' r'] eqn:Es; [discriminate|].
      destruct (c' =? "]")%char eqn:Ec.
      - apply Ascii.eqb_eq in Ec. subst c'. intros [= <- <-]. split.
        + apply consumes_char. exists (a ++ "]").
          rewrite Ea at 1. now rewrite append_assoc.
        + intros l _. exists a. now rewrite Ea at 1.
      - intros H. apply IHe in H as [body Hb]. split.
        + apply consumes_char. exists (a ++ body ++ "]").
          rewrite Ea at 1. rewrite Hb. now rewrite !append_assoc.
        + intros l _. exists (a ++ body).
          rewrite Ea at 1. rewrite Hb. now rewrite !append_assoc. }
    destruct (c =? "{")%char eqn:Eo.
    { destruct (skip_ws rest) as [|c' r'] eqn:Es; [discriminate|].
      destruct (c' =? "}")%char eqn:Ec.
      - intros [= <- <-]. split; [|discriminate].
        apply consumes_char.
        eapply consumes_trans; [apply skip_ws_consumes|].
        rewrite Es. apply consumes_char, consumes_refl.
      - intros H. apply IHm in H as (Hc & d & ->). split; [|discriminate].
        apply consumes_char. rewrite <- Es in Hc.
        eapply consumes_trans; [apply skip_ws_consumes | exact Hc]. }
    destruct (c =? "034")%char eqn:Eq.
    { destruct (string_body rest) as [[x t]|] eqn:E; [|discriminate].
      intros [= <- <-]. split; [|discriminate].
      apply consumes_char. eapply string_body_consumes, E. }
    destruct (prefix "null" (String c rest)) eqn:En.
    { intros [= <- <-]. split; [|discriminate].
      now apply (prefix_consumes "null"). }
    destruct (prefix "true" (String c rest)) eqn:Et.
    { intros [= <- <-]. split; [|discriminate].
      now apply (prefix_consumes "true"). }
    destruct (prefix "false" (String c rest)) eqn:Ef.
    { intros [= <- <-]. split; [|discriminate].
      now apply (prefix_consumes "false"). }
    intros H. apply number_consumes in H as (Hc & z & ->).
    split; [exact Hc | discriminate].
  - (* elements *)
    intros s acc v r. simpl.
    destruct (value fuel s) as [[x rest]|] eqn:Ev; [|discriminate].
    apply IHv in Ev as [Hc _].
    destruct (skip_ws rest) as [|c t] eqn:Es; [discriminate|].
    assert (Hs : consumes s (String c t)).
    { eapply consumes_trans; [exact Hc|]. rewrite <- Es.
      apply skip_ws_consumes. }
    destruct (c =? "]")%char eqn:Ec.
    + apply Ascii.eqb_eq in Ec. subst c. intros [= _ <-].
      eapply consumes_closes; [exact Hs | apply closes_here].
    + destruct (c =? ",")%char; [|discriminate].
      intros H. apply IHe in H.
      eapply consumes_closes; [|exact H].
      eapply consumes_trans; [exact Hs|].
      apply consumes_char, skip_ws_consumes.
  - (* members *)
    intros s acc v r. simpl. destruct s as [|q rest]; [discriminate|].
    destruct (q =? "034")%char; [|discriminate].
    destruct (string_body rest) as [[k r1]|] eqn:Ek; [|discriminate].
    apply string_body_consumes in Ek.
    destruct (skip_ws r1) as [|c1 r2] eqn:E1; [discriminate|].
    destruct (c1 =? ":")%char; [|discriminate].
    destruct (value fuel (skip_ws r2)) as [[x r3]|] eqn:Ev; [|discriminate].
    apply IHv in Ev as [Hc _].
    destruct (skip_ws r3) as [|c2 r4] eqn:E3; [discriminate|].
    assert (Hs : consumes (String q rest) (String c2 r4)).
    { apply consumes_char.
      eapply consumes_trans; [exact Ek|].
      eapply consumes_trans; [apply skip_ws_consumes|]. rewrite E1.
      apply consumes_char.
      eapply consumes_trans; [apply skip_ws_consumes|].
      eapply consumes_trans; [exact Hc|]. rewrite <- E3.
      apply skip_ws_consumes. }
    destruct (c2 =? "}")%char.
    + intros [= <- <-]. split; [|eauto].
      eapply consumes_trans; [exact Hs|]. apply consumes_char, consumes_refl.
    + destruct (c2 =? ",")%char; [|discriminate].
      intros H. apply IHm in H as (Hm & Hd). split; [|exact Hd].
      eapply consumes_trans; [exact Hs|].
      apply consumes_char.
      eapply consumes_trans; [apply skip_ws_consumes | exact Hm].
Qed.

(** A text the decoder reads as an array has the shape of one. *)
Lemma loads_array_text (s : string) (l : list json) :
  loads s = Some (JArr l) -> array_text s.
Proof.
  unfold loads.
  destruct (value (2 * length s + 2) (skip_ws s)) as [[v r]|] eqn:E;
    [|discriminate].
  destruct (skip_ws r =? "") eqn:Er; [|discriminate].
  intros [= ->]. apply String.eqb_eq, skip_ws_nothing_left in Er.
  destruct (decoders_read_well (2 * length s + 2)) as (Hv & _ & _).
  apply Hv in E as [_ Hb]. destruct (Hb l eq_refl) as [body Eb].
  destruct (skip_ws_split s) as (a & Ea & Wa).
  exists a, body, r. rewrite Ea at 1. rewrite Eb. auto.
Qed.

End MiniJsonFacts.

(** ** The stages, one by one *)

Section Stages.

Context `{E : Externals}.

Lemma run_bind {A B : Type} (m : M A) (f : A -> M B) (w : World)
  (a : A) (w1 : World) (ev1 : list event) :
  m w = (Ret a, w1, ev1) ->
  bind m f w
  = (let '(r, w2, ev2) := f a w1 in (r, w2, (ev1 ++ ev2)%list)).
Proof. intros Hm. unfold bind. rewrite Hm. now destruct (f a w1) as [[r w2] ev2]. Qed.

Lemma run_bind_raise {A B : Type} (m : M A) (f : A -> M B) (w : World)
  (e : exn) (w1 : World) (ev1 : list event) :
  m w = (Raise e, w1, ev1) -> bind m f w = (Raise e, w1, ev1).
Proof. intros Hm. unfold bind. now rewrite Hm. Qed.

Lemma run_log {B : Type} (lvl : level) (msg : logmsg) (k : M B) (w : World) :
  bind (log lvl msg) (fun _ => k) w
  = (let '(r, w2, ev2) := k w in (r, w2, Log lvl msg :: ev2)).
Proof. unfold bind, log, emit. now destruct (k w) as [[r w2] ev2]. Qed.

(** A page fetch for its text gives a text, and issues nothing but the
    request, the pause and log lines. *)
Lemma get_clean_text_run (url : string) (w : World) :
  exists text w' ev,
    get_clean_text url w = (Ret text, w', ev)
    /\ forallb harmless ev = true.
Proof.
  unfold get_clean_text, bind, http_get, log, emit, ret.
  destruct (requests_get (JStr url) get_headers 10 w) as [[text|] w'];
    cbn; eauto.
Qed.

Lemma get_project_links_run (url : json) (w : World) :
  exists links w' ev,
    get_project_links url w = (Ret links, w', ev)
    /\ forallb harmless ev = true.
Proof.
  unfold get_project_links, bind, http_get, log, emit, ret.
  destruct (requests_get url get_headers 10 w) as [[text|] w'];
    cbn; eauto.
Qed.

(** The field extractor gives a value; its events are calm, and
    harmless unless the value is true and no object, in which case the
    model's answer among them is bad. *)
Lemma extract_project_info_run (text_blob url : string) (w : World) :
  exists v w' ev,
    extract_project_info text_blob url w = (Ret v, w', ev)
    /\ forallb calm ev = true
    /\ (wrong_shape v = false -> forallb harmless ev = true)
    /\ (wrong_shape v = true -> existsb is_bad_completion ev = true).
Proof.
  unfold extract_project_info.
  destruct ((text_blob =? "") || (length text_blob <? min_blob_length)%nat).
  - exists JNull, w, [Log INFO MsgExtractingInfo; Log WARNING MsgBlobTooShort].
    repeat split; try reflexivity. discriminate.
  - unfold bind, complete, log, emit, ret.
    destruct (completions_create
                (extraction_prompt (take max_blob_length text_blob)) w)
      as [response w'] eqn:Ec.
    cbn. destruct (json_loads response) as [v|] eqn:Ej; cbn.
    + do 3 eexists. split; [reflexivity|]. cbn.
      unfold harmless, is_bad_completion, is_bad_answer. rewrite Ej. cbn.
      repeat split; intros ->; reflexivity.
    + do 3 eexists. split; [reflexivity|]. cbn.
      unfold harmless, is_bad_completion, is_bad_answer. rewrite Ej. cbn.
      repeat split; try reflexivity. discriminate.
Qed.

End Stages.

(** ** The loops take one of their courses *)

Section Loops.

Context `{E : Externals}.

Variable max_projects : option Z.

Local Arguments query_prompt : simpl never.

Lemma links_skip_at (all_projects : list dict) (ev : list event)
  (r : outcome (list dict)) (ev' whole : list event) :
  whole = (ev ++ ev')%list ->
  cap_reached max_projects all_projects = false ->
  forallb harmless ev = true ->
  links_run max_projects all_projects r ev' ->
  links_run max_projects all_projects r whole.
Proof. intros ->. apply links_skip. Qed.

Lemma links_accept_at (all_projects : list dict) (ev : list event)
  (d : dict) (url : string) (r : outcome (list dict))
  (ev' whole : list event) :
  whole
  = (ev ++ Log INFO (MsgAccepted (title_of (dict_set "url" (JStr url) d)))
        :: ev')%list ->
  cap_reached max_projects all_projects = false ->
  forallb harmless ev = true ->
  links_run max_projects
    (all_projects ++ [dict_set "url" (JStr url) d]) r ev' ->
  links_run max_projects all_projects r whole.
Proof. intros ->. apply links_accept. Qed.

Lemma forallb_framed (p : event -> bool) (a : event) (ev tail : list event) :
  p a = true -> forallb p ev = true -> forallb p tail = true ->
  forallb p (a :: ev ++ tail) = true.
Proof.
  intros Ha Hev Ht. cbn. rewrite Ha, forallb_app, Hev, Ht. reflexivity.
Qed.

Lemma harmless_calm (ev : list event) :
  forallb harmless ev = true -> forallb calm ev = true.
Proof.
  induction ev as [|e ev IH]; [reflexivity|]. cbn.
  intros H. apply andb_true_iff in H as [He Hev].
  unfold harmless in He. apply andb_true_iff in He as [He _].
  now rewrite He, IH.
Qed.

Lemma harmless_no_bad (ev : list event) :
  forallb harmless ev = true -> existsb is_bad_completion ev = false.
Proof.
  induction ev as [|e ev IH]; [reflexivity|]. cbn.
  intros H. apply andb_true_iff in H as [He Hev].
  unfold harmless in He. apply andb_true_iff in He as [_ He].
  apply negb_true_iff in He. now rewrite He, IH.
Qed.

(** Whatever the world answers, the loop over the links takes one of
    the courses of [links_run]. *)
Lemma links_loop_runs (total : nat) (links : list string) :
  forall (link_idx : nat) (all_projects : list dict) (w : World)
         (r : outcome (list dict)) (w' : World) (ev : list event),
    links_loop max_projects total links link_idx all_projects w = (r, w', ev) ->
    links_run max_projects all_projects r ev.
Proof.
  induction links as [|url rest IH]; intros idx acc w r w' ev.
  - cbn. intros [= <- <- <-]. constructor.
  - cbn [links_loop]. destruct (cap_reached max_projects acc) eqn:Ecap.
    + rewrite run_log. cbn. intros [= <- <- <-]. now constructor.
    + rewrite run_log.
      destruct (get_clean_text_run url w) as (text & w1 & ev1 & Ht & H1).
      rewrite (run_bind _ _ _ _ _ _ Ht).
      destruct (text =? "").
      * rewrite run_log.
        destruct (links_loop max_projects total rest (S idx) acc w1)
          as [[r2 w2] ev2] eqn:El.
        intros [= <- <- <-]. apply IH in El.
        eapply links_skip_at with
          (ev := Log INFO (MsgProject idx total url)
                 :: ev1 ++ [Log WARNING (MsgNoText url)]); try eassumption.
        -- cbn. now rewrite <- app_assoc.
        -- now apply forallb_framed.
      * destruct (extract_project_info_run text url w1)
          as (v & w2 & ev2 & Hx & Hcalm & Hgood & Hbad).
        rewrite (run_bind _ _ _ _ _ _ Hx).
        destruct (wrong_shape v) eqn:Ews.
        -- (* true and no object: the URL cannot be attached *)
           assert (Hr : (if truthy v
                         then match v with
                              | JObj d =>
                                  log INFO (MsgAccepted
                                    (title_of (dict_set "url" (JStr url) d))) ;;
                                  links_loop max_projects total rest (S idx)
                                    (acc ++ [dict_set "url" (JStr url) d])
                              | _ => raise TypeError
                              end
                         else
                           log WARNING (MsgFailed url) ;;
                           links_loop max_projects total rest (S idx) acc) w2
                        = (Raise TypeError, w2, [])).
           { unfold wrong_shape in Ews. apply andb_true_iff in Ews as [Tv Ov].
             rewrite Tv. destruct v; try reflexivity; discriminate. }
           rewrite Hr. intros [= <- <- <-].
           apply links_crash; [exact Ecap | |].
           ++ rewrite app_nil_r. cbn. rewrite forallb_app.
              rewrite (harmless_calm _ H1). exact (Hcalm).
           ++ rewrite app_nil_r. cbn. rewrite existsb_app.
              rewrite (Hbad eq_refl). apply orb_true_r.
        -- specialize (Hgood eq_refl).
           destruct (truthy v) eqn:Tv.
           ++ unfold wrong_shape in Ews. rewrite Tv in Ews.
              apply negb_false_iff in Ews.
              destruct v as [| | | | | |d]; try discriminate.
              rewrite run_log.
              destruct (links_loop max_projects total rest (S idx)
                          (acc ++ [dict_set "url" (JStr url) d]) w2)
                as [[r3 w3] ev3] eqn:El.
              intros [= <- <- <-]. apply IH in El.
              eapply links_accept_at with
                (ev := Log INFO (MsgProject idx total url) :: ev1 ++ ev2);
                try eassumption.
              ** cbn. now rewrite <- app_assoc.
              ** cbn. rewrite forallb_app, H1, Hgood. reflexivity.
           ++ rewrite run_log.
              destruct (links_loop max_projects total rest (S idx) acc w2)
                as [[r3 w3] ev3] eqn:El.
              intros [= <- <- <-]. apply IH in El.
              eapply links_skip_at with
                (ev := Log INFO (MsgProject idx total url)
                       :: ev1 ++ ev2 ++ [Log WARNING (MsgFailed url)]);
                try eassumption.
              ** cbn. now rewrite <- !app_assoc.
              ** cbn. rewrite !forallb_app, H1, Hgood. reflexivity.
Qed.

Lemma queries_at (all_projects : list dict) (ev : list event)
  (r : outcome (list dict)) (whole : list event) :
  queries_run max_projects all_projects r ev ->
  whole = ev -> queries_run max_projects all_projects r whole.
Proof. now intros H ->. Qed.

(** Whatever the world answers, the loop over the queries takes one of
    the courses of [queries_run]. *)
Lemma queries_loop_runs (total : nat) (queries : list json) :
  forall (query_idx : nat) (all_projects : list dict) (w : World)
         (r : outcome (list dict)) (w' : World) (ev : list event),
    queries_loop max_projects total queries query_idx all_projects w
    = (r, w', ev) ->
    queries_run max_projects all_projects r ev.
Proof.
  induction queries as [|q rest IH]; intros idx acc w r w' ev.
  - cbn. intros [= <- <- <-]. constructor.
  - cbn [queries_loop]. rewrite run_log.
    destruct (get_project_links_run q w) as (links & w1 & ev1 & Hl & H1).
    rewrite (run_bind _ _ _ _ _ _ Hl).
    destruct links as [|url links].
    + rewrite run_log.
      destruct (queries_loop max_projects total rest (S idx) acc w1)
        as [[r2 w2] ev2] eqn:Eq.
      intros [= <- <- <-]. apply IH in Eq.
      eapply queries_at.
      * apply queries_no_links with
          (ev := Log INFO (MsgQuery idx total q)
                 :: ev1 ++ [Log WARNING (MsgNoLinks idx)]) (ev' := ev2);
          [|exact Eq].
        now apply forallb_framed.
      * cbn. now rewrite <- app_assoc.
    + destruct (links_loop max_projects (List.length (url :: links))
                  (url :: links) 1 acc w1) as [[[acc'|e] w2] ev2] eqn:El.
      * rewrite (run_bind _ _ _ _ _ _ El). apply links_loop_runs in El.
        destruct (cap_reached max_projects acc') eqn:Ecap.
        -- cbn. intros [= <- <- <-].
           eapply queries_at.
           ++ apply queries_stop with
                (ev := Log INFO (MsgQuery idx total q) :: ev1) (ev1 := ev2);
                [|exact El|exact Ecap].
              cbn. exact H1.
           ++ cbn. now rewrite app_nil_r.
        -- destruct (queries_loop max_projects total rest (S idx) acc' w2)
             as [[r3 w3] ev3] eqn:Eq.
           intros [= <- <- <-]. apply IH in Eq.
           eapply queries_at.
           ++ apply queries_on with
                (ev := Log INFO (MsgQuery idx total q) :: ev1) (ev1 := ev2)
                (all_projects' := acc') (ev2 := ev3);
                [|exact El|exact Ecap|exact Eq].
              cbn. exact H1.
           ++ reflexivity.
      * rewrite (run_bind_raise _ _ _ _ _ _ El). apply links_loop_runs in El.
        intros [= <- <- <-].
        eapply queries_at.
        -- apply queries_crash with
             (ev := Log INFO (MsgQuery idx total q) :: ev1) (ev1 := ev2);
             [|exact El].
           cbn. exact H1.
        -- reflexivity.
Qed.

Lemma py_len_iter (v : json) :
  py_len v = option_map (@List.length json) (py_iter v).
Proof.
  destruct v as [| | | |s|l|d]; try reflexivity; cbn; f_equal.
  - rewrite length_map. induction s as [|c s IH]; cbn; congruence.
  - unfold keys. now rewrite !length_map.
Qed.

Lemma save_results_run (all_projects : list dict) (w : World) :
  save_results all_projects w = (Ret tt, w, closing all_projects).
Proof. now destruct all_projects. Qed.

(** [main_agent], stage by stage. *)
Lemma main_agent_run (user_prompt : string) (w : World) :
  main_agent user_prompt max_projects w =
  let '(response_text, w1) :=
    completions_create (query_prompt user_prompt) w in
  let start := opening user_prompt response_text in
  match parse_queries response_text with
  | None => (Ret None, w1, (start ++ [Log ERROR MsgQueriesUnparsed])%list)
  | Some search_queries =>
      match py_iter search_queries with
      | None =>
          (Raise TypeError, w1,
           (start ++ [Log DEBUG (MsgQueriesResponse response_text)])%list)
      | Some queries =>
          let total := List.length queries in
          let generated :=
            [ Log DEBUG (MsgQueriesResponse response_text);
              Log INFO (MsgGenerated total) ] in
          match queries_loop max_projects total queries 1 [] w1 with
          | (Ret all_projects, w2, ev) =>
              (Ret (Some all_projects), w2,
               (start ++ generated ++ ev ++ closing all_projects)%list)
          | (Raise e, w2, ev) =>
              (Raise e, w2, (start ++ generated ++ ev)%list)
          end
      end
  end.
Proof.
  unfold main_agent, generate_search_queries, try_except, bind, complete,
    log, emit, ret, raise.
  destruct (completions_create (query_prompt user_prompt) w)
    as [response_text w1].
  cbn. destruct (parse_queries response_text) as [q|]; [|reflexivity].
  pose proof (py_len_iter q) as Hlen.
  destruct q as [| | | |s|l|d]; cbn in *; try reflexivity;
    try (injection Hlen as Hlen; rewrite Hlen);
    match goal with
    | |- context [queries_loop ?c ?n ?qs ?i ?acc ?w0] =>
        destruct (queries_loop c n qs i acc w0)
          as [[[all_projects|e] w2] ev]; [|reflexivity]
    end;
    destruct all_projects; cbn; now rewrite ?app_nil_r.
Qed.

End Loops.

(** ** Counting along the events *)

Section Events.

Lemma accepted_app (a b : list event) :
  accepted (a ++ b) = accepted a + accepted b.
Proof. unfold accepted. now rewrite filter_app, length_app. Qed.

Lemma csv_writes_app (a b : list event) :
  csv_writes (a ++ b) = (csv_writes a ++ csv_writes b)%list.
Proof. apply filter_app. Qed.

Lemma calm_accepted (ev : list event) :
  forallb calm ev = true -> accepted ev = 0.
Proof.
  unfold accepted. induction ev as [|e ev IH]; [reflexivity|].
  cbn [forallb filter]. intros H. apply andb_true_iff in H as [He Hev].
  unfold calm in He. apply andb_true_iff in He as [He _].
  apply negb_true_iff in He. rewrite He. now apply IH.
Qed.

Lemma calm_csv_writes (ev : list event) :
  forallb calm ev = true -> csv_writes ev = [].
Proof.
  unfold csv_writes. induction ev as [|e ev IH]; [reflexivity|].
  cbn [forallb filter]. intros H. apply andb_true_iff in H as [He Hev].
  unfold calm in He. apply andb_true_iff in He as [_ He].
  apply negb_true_iff in He. rewrite He. now apply IH.
Qed.

Lemma capped_app (c : nat) (a b : list event) :
  forall n, capped c n (a ++ b) = capped c n a && capped c (n + accepted a) b.
Proof.
  induction a as [|e a IH]; intros n.
  - cbn. now rewrite Nat.add_0_r.
  - cbn [app capped]. rewrite IH, andb_assoc. do 2 f_equal.
    unfold accepted. cbn [filter]. destruct (is_accept e); cbn; lia.
Qed.

(** Below the cap anything may happen, as long as no record is
    accepted. *)
Lemma capped_calm (c n : nat) (ev : list event) :
  n < c -> forallb calm ev = true -> capped c n ev = true.
Proof.
  intros Hn. induction ev as [|e ev IH]; [reflexivity|].
  cbn [forallb capped]. intros H. apply andb_true_iff in H as [He Hev].
  unfold calm in He. apply andb_true_iff in He as [He _].
  apply negb_true_iff in He. rewrite He.
  apply Nat.leb_gt in Hn. rewrite Hn. apply Nat.leb_gt in Hn. now apply IH.
Qed.

(** At the cap no work is left. *)
Lemma capped_at_cap (c : nat) (ev : list event) :
  forall n, c <= n -> capped c n ev = true ->
            forallb (fun e => negb (is_work e)) ev = true.
Proof.
  induction ev as [|e ev IH]; intros n Hn; [reflexivity|].
  cbn [forallb capped]. apply Nat.leb_le in Hn. rewrite Hn.
  apply Nat.leb_le in Hn.
  intros H. apply andb_true_iff in H as [He Hev]. rewrite He.
  apply (IH (if is_accept e then S n else n)); [|exact Hev].
  destruct (is_accept e); lia.
Qed.

(** The check along the events says what it should: wherever the
    events are cut, if the cap was reached before the cut, no work
    comes after it. *)
Lemma capped_cut (c : nat) (pre post : list event) :
  forall n, capped c n (pre ++ post) = true ->
            c <= n + accepted pre ->
            forallb (fun e => negb (is_work e)) post = true.
Proof.
  intros n H Hc. rewrite capped_app in H.
  apply andb_true_iff in H as [_ H]. eapply capped_at_cap; eassumption.
Qed.

Lemma dict_get_set (k : string) (v : json) (d : dict) :
  dict_get k (dict_set k v d) = Some v.
Proof.
  induction d as [|[k' v'] d IH]; cbn.
  - now rewrite String.eqb_refl.
  - destruct (k' =? k) eqn:Ek; cbn; now rewrite Ek.
Qed.

Lemma has_url_set (url : string) (d : dict) :
  has_url (dict_set "url" (JStr url) d) = true.
Proof. unfold has_url. now rewrite dict_get_set. Qed.

End Events.

(** ** What every course of the loops keeps *)

Section Courses.

Context `{E : Externals}.

Lemma keeps_skip (acc : list dict) (ev : list event)
  (r : outcome (list dict)) (ev' : list event) :
  forallb harmless ev = true -> keeps acc r ev' -> keeps acc r (ev ++ ev').
Proof.
  intros H (Hcsv & Hret & Hraise).
  pose proof (harmless_calm _ H) as Hcalm.
  repeat apply conj.
  - now rewrite csv_writes_app, (calm_csv_writes _ Hcalm), Hcsv.
  - intros res Hr. destruct (Hret res Hr) as (Hb & new & -> & Hn & Hu).
    split; [now rewrite existsb_app, (harmless_no_bad _ H), Hb|].
    exists new. rewrite accepted_app, (calm_accepted _ Hcalm). auto.
  - intros e Hr. destruct (Hraise e Hr) as (-> & Hb). split; [reflexivity|].
    rewrite existsb_app, Hb. apply orb_true_r.
Qed.

Lemma keeps_here (acc : list dict) (ev : list event) :
  forallb harmless ev = true -> keeps acc (Ret acc) ev.
Proof.
  intros H. rewrite <- (app_nil_r ev). apply keeps_skip; [exact H|].
  repeat apply conj; [reflexivity | | intros e; discriminate].
  intros res [= <-]. split; [reflexivity|]. exists [].
  now rewrite app_nil_r.
Qed.

Lemma links_run_keeps (max_projects : option Z) (acc : list dict)
  (r : outcome (list dict)) (ev : list event) :
  links_run max_projects acc r ev -> keeps acc r ev.
Proof.
  induction 1 as [acc|acc Hcap|acc ev r ev' Hcap Hev _ IH
                 |acc ev d url r ev' Hcap Hev _ IH|acc ev Hcap Hev Hbad].
  - now apply keeps_here.
  - now apply keeps_here.
  - now apply keeps_skip.
  - apply keeps_skip; [exact Hev|].
    destruct IH as (Hcsv & Hret & Hraise). repeat apply conj.
    + exact Hcsv.
    + intros res Hr. destruct (Hret res Hr) as (Hb & new & -> & Hn & Hu).
      split; [exact Hb|].
      exists (dict_set "url" (JStr url) d :: new).
      rewrite <- app_assoc. split; [reflexivity|]. split.
      * change (Log INFO (MsgAccepted (title_of (dict_set "url" (JStr url) d)))
                :: ev')
          with ([Log INFO (MsgAccepted (title_of (dict_set "url" (JStr url) d)))]
                ++ ev')%list.
        rewrite accepted_app. cbn. now rewrite Hn.
      * cbn. now rewrite has_url_set.
    + intros e Hr. destruct (Hraise e Hr) as (-> & Hb). now split.
  - repeat apply conj.
    + now apply calm_csv_writes.
    + intros res; discriminate.
    + intros e [= <-]. now split.
Qed.

Lemma queries_run_keeps (max_projects : option Z) (acc : list dict)
  (r : outcome (list dict)) (ev : list event) :
  queries_run max_projects acc r ev -> keeps acc r ev.
Proof.
  induction 1 as [acc|acc ev r ev' Hev _ IH
                 |acc ev acc' ev1 r ev2 Hev Hl Hcap _ IH
                 |acc ev acc' ev1 Hev Hl Hcap|acc ev e ev1 Hev Hl].
  - now apply keeps_here.
  - now apply keeps_skip.
  - apply keeps_skip; [exact Hev|].
    apply links_run_keeps in Hl. destruct Hl as (Lcsv & Lret & _).
    destruct (Lret acc' eq_refl) as (Lb & new1 & -> & Ln & Lu).
    destruct IH as (Hcsv & Hret & Hraise). repeat apply conj.
    + now rewrite csv_writes_app, Lcsv, Hcsv.
    + intros res Hr. destruct (Hret res Hr) as (Hb & new & -> & Hn & Hu).
      split; [now rewrite existsb_app, Lb, Hb|].
      exists (new1 ++ new)%list. rewrite app_assoc. split; [reflexivity|].
      rewrite length_app, accepted_app, forallb_app, Ln, Hn, Lu, Hu. auto.
    + intros e Hr. destruct (Hraise e Hr) as (-> & Hb). split; [reflexivity|].
      rewrite existsb_app, Hb. apply orb_true_r.
  - apply keeps_skip; [exact Hev|]. now apply links_run_keeps in Hl.
  - apply keeps_skip; [exact Hev|]. now apply links_run_keeps in Hl.
Qed.

End Courses.

(** ** Adding what is not yet there keeps first-seen order *)

Section FirstSeen.

Lemma mem_In (x : string) (l : list string) : mem x l = true <-> In x l.
Proof.
  unfold mem. rewrite existsb_exists. split.
  - intros (y & Hy & Exy). apply String.eqb_eq in Exy. now subst.
  - intros H. exists x. split; [exact H | apply String.eqb_refl].
Qed.

Lemma mem_app (x : string) (a b : list string) :
  mem x (a ++ b) = mem x a || mem x b.
Proof. apply existsb_app. Qed.

Lemma filter_twice {A : Type} (p q : A -> bool) (l : list A) :
  filter p (filter q l) = filter (fun x => q x && p x) l.
Proof.
  induction l as [|x l IH]; [reflexivity|]. cbn.
  destruct (q x); cbn; [destruct (p x)|]; now rewrite IH.
Qed.

(** The loop that adds a name unless it is there, from any start. *)
Lemma fold_add_column (ks : list string) :
  forall cols,
    fold_left add_column ks cols
    = (cols ++ filter (fun k => negb (mem k cols)) (dedup_first ks))%list.
Proof.
  induction ks as [|k ks IH]; intros cols.
  - cbn. now rewrite app_nil_r.
  - cbn [fold_left dedup_first filter]. unfold add_column at 2.
    destruct (mem k cols) eqn:Ek; rewrite IH; cbn [negb].
    + f_equal. rewrite filter_twice. apply filter_ext. intros y.
      destruct (y =? k) eqn:Ey; [|reflexivity].
      apply String.eqb_eq in Ey. subst y. now rewrite Ek.
    + rewrite <- app_assoc. cbn [app]. do 2 f_equal.
      rewrite filter_twice. apply filter_ext. intros y.
      rewrite mem_app. cbn. rewrite orb_false_r, negb_orb.
      apply andb_comm.
Qed.

Lemma fold_add_column_dedup (ks : list string) :
  fold_left add_column ks [] = dedup_first ks.
Proof.
  rewrite fold_add_column. cbn. induction (dedup_first ks) as [|x l IH];
    [reflexivity | cbn; now rewrite IH].
Qed.

Lemma In_dedup_first (x : string) (l : list string) :
  In x (dedup_first l) <-> In x l.
Proof.
  induction l as [|y l IH]; [reflexivity|]. cbn.
  rewrite filter_In, IH. split.
  - intros [?|[? _]]; auto.
  - intros [?|H]; [now left|].
    destruct (String.eqb_spec x y) as [->|N]; [now left|].
    right. split; [exact H | reflexivity].
Qed.

Lemma NoDup_dedup_first (l : list string) : NoDup (dedup_first l).
Proof.
  induction l as [|y l IH]; cbn; constructor.
  - rewrite filter_In. intros [_ H]. now rewrite String.eqb_refl in H.
  - now apply NoDup_filter.
Qed.

Lemma mem_dedup_first (x : string) (l : list string) :
  mem x (dedup_first l) = mem x l.
Proof.
  apply eq_true_iff_eq. now rewrite !mem_In, In_dedup_first.
Qed.

Lemma dedup_first_app (a b : list string) :
  dedup_first (a ++ b)
  = (dedup_first a ++ filter (fun k => negb (mem k a)) (dedup_first b))%list.
Proof.
  rewrite <- (fold_add_column_dedup (a ++ b)), fold_left_app.
  rewrite fold_add_column_dedup, fold_add_column. f_equal.
  apply filter_ext. intros k. now rewrite mem_dedup_first.
Qed.

(** What was seen first stays in front when more is read. *)
Lemma dedup_first_prefix (a b : list string) :
  exists more, dedup_first (a ++ b) = (dedup_first a ++ more)%list.
Proof. eexists. apply dedup_first_app. Qed.

Lemma DataFrame_columns_fold (records : list dict) :
  forall cols,
    fold_left (fun columns r => fold_left add_column (keys r) columns)
      records cols
    = fold_left add_column (flat_map keys records) cols.
Proof.
  induction records as [|r records IH]; intros cols; [reflexivity|].
  cbn [fold_left flat_map]. now rewrite fold_left_app, IH.
Qed.

(** The columns of the frame: every key of every record, where it is
    first seen. *)
Lemma DataFrame_columns_dedup (records : list dict) :
  DataFrame_columns records = dedup_first (flat_map keys records).
Proof.
  unfold DataFrame_columns.
  now rewrite DataFrame_columns_fold, fold_add_column_dedup.
Qed.

End FirstSeen.

(** ** The record cap *)

Section Cap.

Context `{E : Externals}.

Variable c : Z.
Hypothesis c_positive : (1 <= c)%Z.

Lemma below_cap (acc : list dict) :
  cap_reached (Some c) acc = false -> List.length acc < Z.to_nat c.
Proof.
  unfold cap_reached. intros H. apply andb_false_iff in H as [H|H].
  - apply negb_false_iff, Z.eqb_eq in H. lia.
  - apply Z.leb_gt in H. lia.
Qed.

(** The loop over the links does no work once the cap is reached, and
    accepts nothing beyond it. *)
Lemma links_run_capped (acc : list dict) (r : outcome (list dict))
  (ev : list event) :
  links_run (Some c) acc r ev ->
  capped (Z.to_nat c) (List.length acc) ev = true
  /\ (List.length acc <= Z.to_nat c ->
      List.length acc + accepted ev <= Z.to_nat c).
Proof.
  induction 1 as [acc|acc Hcap|acc ev r ev' Hcap Hev _ IH
                 |acc ev d url r ev' Hcap Hev _ IH|acc ev Hcap Hev Hbad].
  - split; [reflexivity | cbn; lia].
  - split; [|cbn; lia]. cbn. now destruct (_ <=? _)%nat.
  - apply below_cap in Hcap. apply harmless_calm in Hev.
    rewrite capped_app, accepted_app, (calm_accepted _ Hev), Nat.add_0_r.
    rewrite (capped_calm _ _ _ Hcap Hev). exact IH.
  - apply below_cap in Hcap. apply harmless_calm in Hev.
    rewrite length_app in IH. cbn [List.length] in IH.
    destruct IH as [IHc IHn].
    rewrite capped_app, accepted_app, (calm_accepted _ Hev), Nat.add_0_r.
    rewrite (capped_calm _ _ _ Hcap Hev). cbn [capped is_accept andb].
    unfold accepted in *. cbn [filter is_accept List.length].
    rewrite Nat.add_1_r in IHc. rewrite IHc.
    split; [now destruct (_ <=? _)%nat | lia].
  - apply below_cap in Hcap.
    rewrite (capped_calm _ _ _ Hcap Hev), (calm_accepted _ Hev).
    split; [reflexivity | lia].
Qed.

(** So does the loop over the queries, when it starts below the cap. *)
Lemma queries_run_capped (acc : list dict) (r : outcome (list dict))
  (ev : list event) :
  queries_run (Some c) acc r ev ->
  cap_reached (Some c) acc = false ->
  capped (Z.to_nat c) (List.length acc) ev = true
  /\ List.length acc + accepted ev <= Z.to_nat c.
Proof.
  induction 1 as [acc|acc ev r ev' Hev _ IH
                 |acc ev acc' ev1 r ev2 Hev Hl Hcap _ IH
                 |acc ev acc' ev1 Hev Hl Hcap|acc ev e ev1 Hev Hl];
    intros Hstart; apply below_cap in Hstart as Hn;
    try apply harmless_calm in Hev.
  - split; [reflexivity | cbn; lia].
  - rewrite capped_app, accepted_app, (calm_accepted _ Hev), Nat.add_0_r.
    rewrite (capped_calm _ _ _ Hn Hev). now apply IH.
  - destruct (links_run_keeps _ _ _ _ Hl) as (_ & Lret & _).
    destruct (Lret acc' eq_refl) as (_ & new & -> & Ln & _).
    destruct (links_run_capped _ _ _ Hl) as [Lc _].
    destruct (IH Hcap) as [IHc IHn]. rewrite length_app, Ln in IHc, IHn.
    rewrite !capped_app, !accepted_app, (calm_accepted _ Hev), Nat.add_0_r.
    rewrite (capped_calm _ _ _ Hn Hev), Lc, IHc. split; [reflexivity | lia].
  - destruct (links_run_capped _ _ _ Hl) as [Lc Ln].
    rewrite capped_app, accepted_app, (calm_accepted _ Hev), Nat.add_0_r.
    rewrite (capped_calm _ _ _ Hn Hev), Lc. split; [reflexivity | lia].
  - destruct (links_run_capped _ _ _ Hl) as [Lc Ln].
    rewrite capped_app, accepted_app, (calm_accepted _ Hev), Nat.add_0_r.
    rewrite (capped_calm _ _ _ Hn Hev), Lc. split; [reflexivity | lia].
Qed.

Lemma capped_silent (n : nat) (ev : list event) :
  forallb (fun e => negb (is_work e)) ev = true ->
  capped (Z.to_nat c) n ev = true.
Proof.
  revert n. induction ev as [|e ev IH]; intros n; [reflexivity|].
  cbn [forallb capped]. intros H. apply andb_true_iff in H as [He Hev].
  rewrite He, (IH _ Hev). now destruct (_ <=? _)%nat.
Qed.

Lemma closing_silent (all_projects : list dict) :
  forallb (fun e => negb (is_work e)) (closing all_projects) = true
  /\ accepted (closing all_projects) = 0.
Proof. now destruct all_projects. Qed.

(** A whole run under a cap of at least one. *)
Lemma main_agent_capped (user_prompt : string) (w : World) :
  let r := run (main_agent user_prompt (Some c)) w in
  capped (Z.to_nat c) 0 (events_of r) = true
  /\ accepted (events_of r) <= Z.to_nat c
  /\ (forall all_projects,
        result_of r = Ret (Some all_projects) ->
        List.length all_projects = accepted (events_of r)).
Proof.
  unfold run. rewrite main_agent_run.
  destruct (completions_create (query_prompt user_prompt) w)
    as [response_text w1].
  cbv zeta.
  assert (Hpos : 0 < Z.to_nat c) by lia.
  assert (Hopen : forall tail,
             forallb calm tail = true ->
             forallb calm (opening user_prompt response_text ++ tail) = true).
  { intros tail Ht. rewrite forallb_app, Ht. reflexivity. }
  destruct (parse_queries response_text) as [q|].
  - destruct (py_iter q) as [queries|].
    + destruct (queries_loop (Some c) (List.length queries) queries 1 [] w1)
        as [[[all_projects|e] w2] ev] eqn:Eq;
        apply queries_loop_runs in Eq as Hq;
        destruct (queries_run_capped _ _ _ Hq) as [Qc Qn];
        try (cbn; apply andb_false_iff; right; apply Z.leb_gt; cbn; lia);
        cbn [List.length] in Qc, Qn; cbn [events_of result_of snd fst].
      * destruct (queries_run_keeps _ _ _ _ Hq) as (_ & Kret & _).
        destruct (Kret all_projects eq_refl) as (_ & new & Enew & Kn & _).
        cbn [app] in Enew. subst new.
        destruct (closing_silent all_projects) as [Cs Ca].
        rewrite !capped_app, !accepted_app, Ca.
        rewrite (capped_calm _ _ (opening user_prompt response_text) Hpos eq_refl).
        rewrite (calm_accepted (opening user_prompt response_text) eq_refl).
        cbn [accepted filter is_accept List.length Nat.add capped andb].
        change (match Z.to_nat c with 0 => true | S m' => false end)
          with (Z.to_nat c <=? 0)%nat.
        destruct (Z.to_nat c <=? 0)%nat eqn:E0;
          [apply Nat.leb_le in E0; lia|].
        cbn [negb andb is_work]. rewrite Nat.add_0_r.
        unfold accepted in Qc. rewrite Qc, (capped_silent _ _ Cs).
        repeat split; [lia|]. intros rs [= <-]. fold (accepted ev). lia.
      * rewrite !capped_app, !accepted_app.
        rewrite (capped_calm _ _ (opening user_prompt response_text) Hpos eq_refl).
        rewrite (calm_accepted (opening user_prompt response_text) eq_refl).
        cbn [accepted filter is_accept List.length Nat.add capped andb].
        change (match Z.to_nat c with 0 => true | S m' => false end)
          with (Z.to_nat c <=? 0)%nat.
        destruct (Z.to_nat c <=? 0)%nat eqn:E0;
          [apply Nat.leb_le in E0; lia|].
        cbn [negb andb is_work].
        unfold accepted in Qc. rewrite Qc.
        repeat split; [fold (accepted ev); lia|]. discriminate.
    + cbn [events_of result_of snd fst].
      pose proof (Hopen [Log DEBUG (MsgQueriesResponse response_text)]
                    eq_refl) as Hc.
      rewrite (capped_calm _ _ _ Hpos Hc), (calm_accepted _ Hc).
      repeat split; [lia|]. discriminate.
  - cbn [events_of result_of snd fst].
    pose proof (Hopen [Log ERROR MsgQueriesUnparsed] eq_refl) as Hc.
    rewrite (capped_calm _ _ _ Hpos Hc), (calm_accepted _ Hc).
    repeat split; [lia|]. intros rs [= ].
Qed.

End Cap.

(** ** The extractors on the tree of a page *)

Section Pages.

(** Induction on a node, with the property known of all its children. *)
Lemma node_children_ind (P : node -> Prop) :
  (forall s, P (Text s)) ->
  (forall s, P (Comment s)) ->
  (forall t a cs, Forall P cs -> P (Elem t a cs)) ->
  forall n, P n.
Proof.
  intros HT HC HE. fix IH 1. intros [s|s|t a cs].
  - apply HT.
  - apply HC.
  - apply HE. induction cs as [|c cs IHcs]; constructor.
    + apply IH.
    + exact IHcs.
Qed.

Lemma flat_map_flat_map {A B C : Type} (f : A -> list B) (g : B -> list C)
  (l : list A) :
  flat_map g (flat_map f l) = flat_map (fun x => flat_map g (f x)) l.
Proof.
  induction l as [|x l IH]; [reflexivity|].
  cbn. now rewrite flat_map_app, IH.
Qed.

Lemma flat_map_Forall_ext {A B : Type} (f g : A -> list B) (l : list A) :
  Forall (fun x => f x = g x) l -> flat_map f l = flat_map g l.
Proof. induction 1 as [|x l Hx _ IH]; cbn; congruence. Qed.

Lemma map_flat_map {A B C : Type} (f : A -> list B) (g : B -> C)
  (l : list A) :
  map g (flat_map f l) = flat_map (fun x => map g (f x)) l.
Proof.
  induction l as [|x l IH]; [reflexivity|].
  cbn. now rewrite map_app, IH.
Qed.

(** The targets of the elements [find_all('a', href=True)] gives are
    the hyperlink targets of the page. *)
Lemma find_all_targets (n : node) :
  flat_map href_of (find_all is_anchor_with_href n) = hyperlink_targets n.
Proof.
  induction n as [s|s|t a cs IH] using node_children_ind;
    [reflexivity | reflexivity |].
  cbn [find_all hyperlink_targets]. rewrite flat_map_app.
  rewrite flat_map_flat_map, (flat_map_Forall_ext _ _ _ IH). f_equal.
  unfold is_anchor_with_href.
  destruct (t =? "a"); [|reflexivity].
  cbn [andb]. destruct (get_attr "href" a) as [href|] eqn:Eh;
    [|reflexivity].
  cbn [flat_map href_of]. now rewrite Eh.
Qed.

(** The loop over the hyperlink elements adds, one by one, the
    qualified targets that hold the marker. *)
Lemma link_steps (anchors : list node) :
  forall links,
    fold_left link_step anchors links
    = fold_left add_column
        (map qualify
           (filter (contains listings_marker) (flat_map href_of anchors)))
        links.
Proof.
  induction anchors as [|a anchors IH]; intros links; [reflexivity|].
  cbn [fold_left flat_map]. rewrite filter_app, map_app, fold_left_app, IH.
  f_equal. destruct a as [s|s|t attrs cs]; try reflexivity.
  cbn. destruct (get_attr "href" attrs) as [href|]; [|reflexivity].
  cbn. destruct (contains listings_marker href); reflexivity.
Qed.

(** What is left of a node's texts when the noise is gone. *)
Lemma decompose_strings (n : node) :
  flat_map all_strings (decompose_all noise_tags n) = visible_strings n.
Proof.
  induction n as [s|s|t a cs IH] using node_children_ind.
  - cbn. now rewrite app_nil_r.
  - reflexivity.
  - cbn [decompose_all visible_strings].
    destruct (mem t noise_tags); [reflexivity|].
    cbn [flat_map all_strings]. rewrite app_nil_r.
    rewrite flat_map_flat_map. now apply flat_map_Forall_ext.
Qed.

(** The texts of the content elements left when the noise is gone. *)
Lemma decompose_fragments (n : node) :
  map get_text_strip
    (flat_map (find_all is_content) (decompose_all noise_tags n))
  = visible_fragments n.
Proof.
  induction n as [s|s|t a cs IH] using node_children_ind;
    [reflexivity | reflexivity |].
  cbn [decompose_all visible_fragments].
  destruct (mem t noise_tags); [reflexivity|].
  cbn [flat_map find_all]. rewrite app_nil_r, map_app. f_equal.
  - unfold is_content. destruct (mem t content_tags); [|reflexivity].
    cbn [map]. unfold get_text_strip. cbn [all_strings].
    apply (f_equal (fun x => [join "" x])).
    rewrite flat_map_flat_map. apply flat_map_Forall_ext.
    apply Forall_forall. intros c _. apply decompose_strings.
  - rewrite flat_map_flat_map, map_flat_map.
    now apply flat_map_Forall_ext.
Qed.

(** The loop over the content elements keeps the long texts. *)
Lemma text_steps (tags : list node) :
  forall text_elements,
    fold_left text_step tags text_elements
    = (text_elements ++ filter is_long (map get_text_strip tags))%list.
Proof.
  induction tags as [|tag tags IH]; intros acc.
  - cbn. now rewrite app_nil_r.
  - cbn [fold_left map filter]. rewrite IH. unfold text_step, is_long.
    change min_fragment_length with 10.
    destruct (get_text_strip tag) as [|ch rest] eqn:Et; [reflexivity|].
    cbn [String.eqb negb andb].
    destruct (10 <? length (String ch rest))%nat;
      [now rewrite <- app_assoc | reflexivity].
Qed.

Lemma text_elements_fragments (soup : list node) :
  text_elements_of soup
  = filter is_long (flat_map visible_fragments soup).
Proof.
  unfold text_elements_of, soup_find_all, soup_decompose.
  rewrite (text_steps _ []). cbn [app]. f_equal.
  rewrite flat_map_flat_map, map_flat_map.
  apply flat_map_Forall_ext, Forall_forall. intros n _.
  apply decompose_fragments.
Qed.

End Pages.

(** ** The settings *)

Section Settings.

Context `{E : Externals}.

Lemma dict_mem_get (k : string) (d : dict) :
  dict_mem k d = false -> dict_get k d = None.
Proof.
  unfold dict_mem, mem, keys. induction d as [|[k' v] d IH]; [reflexivity|].
  cbn. rewrite (String.eqb_sym k k').
  destruct (k' =? k); [discriminate | exact IH].
Qed.

Lemma field_missing_object (d : dict) (field : string) :
  field_missing (JObj d) field = Ret (absent_or_empty d field).
Proof.
  unfold field_missing, absent_or_empty. cbn [py_contains].
  destruct (dict_mem field d) eqn:Em.
  - now destruct (dict_get field d).
  - now rewrite (dict_mem_get _ _ Em).
Qed.

Lemma missing_fields_object (d : dict) (fields : list string) :
  missing_fields_of (JObj d) fields = Ret (filter (absent_or_empty d) fields).
Proof.
  induction fields as [|f fields IH]; [reflexivity|].
  cbn [missing_fields_of filter]. rewrite field_missing_object, IH.
  reflexivity.
Qed.

Lemma load_config_object (text : string) (d : dict) (w : World) :
  json_loads text = Some (JObj d) ->
  result_of (run (load_config (Some text)) w)
  = match filter (absent_or_empty d) required_fields with
    | [] =>
        Ret (setting d "api_key", setting d "api_base", setting d "model_name")
    | name :: names =>
        Raise (ValueError ("Missing required configuration fields: "
                           ++ join ", " (name :: names)))
    end.
Proof.
  intros Hj. unfold run, load_config, try_except, bind. rewrite Hj.
  cbn [ret]. rewrite missing_fields_object. cbn [lift ret].
  destruct (filter (absent_or_empty d) required_fields) as [|name names].
  - unfold setting. cbn.
    destruct (dict_get "api_key" d), (dict_get "api_base" d),
      (dict_get "model_name" d); reflexivity.
  - reflexivity.
Qed.

Lemma present_setting (d : dict) (k : string) :
  absent_or_empty d k = false ->
  dict_get k d = Some (setting d k) /\ truthy (setting d k) = true.
Proof.
  unfold absent_or_empty, setting. destruct (dict_get k d) as [v|];
    [|discriminate].
  intros H. apply negb_false_iff in H. auto.
Qed.

End Settings.

(** ** A cap that is never reached *)

Section Uncapped.

Context `{E : Externals}.


Variable max_projects : option Z.
Hypothesis never_reached :
  forall all_projects, cap_reached max_projects all_projects = false.



End Uncapped.

(** ** The first and the last events of a run *)

Section WholeRuns.

Context `{E : Externals}.

Lemma prompts_differ (text_blob user_prompt : string) :
  extraction_prompt text_blob <> query_prompt user_prompt.
Proof. unfold extraction_prompt, query_prompt, lines, join. cbn. discriminate. Qed.

Lemma opening_events (user_prompt response_text : string) :
  forallb calm (opening user_prompt response_text) = true
  /\ (forall text_blob response,
        ~ In (Completion (extraction_prompt text_blob) response)
            (opening user_prompt response_text)).
Proof.
  split; [reflexivity|]. intros text_blob response Hin. cbn in Hin.
  repeat (destruct Hin as [Heq|Hin];
          [first [ discriminate
                 | injection Heq as Hp _; symmetry in Hp;
                   now apply prompts_differ in Hp ]|]).
  destruct Hin.
Qed.

Lemma closing_events (all_projects : list dict) :
  accepted (closing all_projects) = 0
  /\ (forall content response,
        ~ In (Completion content response) (closing all_projects))
  /\ csv_writes (closing all_projects)
     = match all_projects with
       | [] => []
       | _ :: _ =>
           [ToCsv csv_path (DataFrame_columns all_projects)
              (DataFrame_rows (DataFrame_columns all_projects) all_projects)]
       end.
Proof.
  destruct all_projects; repeat split; try reflexivity;
    intros content response Hin; cbn in Hin;
    repeat (destruct Hin as [Heq|Hin]; [discriminate|]); destruct Hin.
Qed.

Lemma bad_completion_found (ev : list event) (content response : string)
  (v : json) :
  In (Completion content response) ev ->
  json_loads response = Some v -> wrong_shape v = true ->
  existsb is_bad_completion ev = true.
Proof.
  intros Hin Hj Hw. apply existsb_exists.
  exists (Completion content response). split; [exact Hin|].
  unfold is_bad_completion, is_bad_answer. now rewrite Hj.
Qed.

Lemma start_events (user_prompt response_text : string) (tail : list event) :
  forallb calm tail = true ->
  (forall content response, ~ In (Completion content response) tail) ->
  forallb calm (opening user_prompt response_text ++ tail) = true
  /\ (forall text_blob response,
        ~ In (Completion (extraction_prompt text_blob) response)
            (opening user_prompt response_text ++ tail)).
Proof.
  intros Hcalm Hnone.
  destruct (opening_events user_prompt response_text) as [Ocalm Onone].
  split.
  - now rewrite forallb_app, Ocalm, Hcalm.
  - intros text_blob response Hin. apply in_app_or in Hin as [Hin|Hin].
    + now apply Onone in Hin.
    + now apply Hnone in Hin.
Qed.

(** The course of a whole run: calm events without a call of the field
    extractor first; then either nothing more, the run ending with
    [None] or a [TypeError] on the decoded queries, or the events of
    the loop over the queries, followed on a normal end by those of
    step 5. *)
Lemma main_agent_course (user_prompt : string) (max_projects : option Z)
  (w : World) :
  let r := run (main_agent user_prompt max_projects) w in
  exists start loop_events finish,
    events_of r = (start ++ loop_events ++ finish)%list
    /\ forallb calm start = true
    /\ (forall text_blob response,
          ~ In (Completion (extraction_prompt text_blob) response) start)
    /\ ((loop_events = [] /\ finish = []
         /\ (result_of r = Ret None \/ result_of r = Raise TypeError))
        \/ (exists all_projects,
              queries_run max_projects [] (Ret all_projects) loop_events
              /\ result_of r = Ret (Some all_projects)
              /\ finish = closing all_projects)
        \/ (exists e,
              queries_run max_projects [] (Raise e) loop_events
              /\ result_of r = Raise e /\ finish = [])).
Proof.
  unfold run. rewrite main_agent_run.
  destruct (completions_create (query_prompt user_prompt) w)
    as [response_text w1].
  cbv zeta.
  assert (Hlogs : forall tail,
            forallb (fun e => calm e && negb (is_completion e)) tail = true ->
            forallb calm (opening user_prompt response_text ++ tail) = true
            /\ (forall text_blob response,
                  ~ In (Completion (extraction_prompt text_blob) response)
                      (opening user_prompt response_text ++ tail))).
  { intros tail Ht. rewrite forallb_forall in Ht. apply start_events.
    - apply forallb_forall. intros e He. apply Ht in He.
      now apply andb_true_iff in He as [He _].
    - intros content response Hin. apply Ht in Hin. discriminate. }
  destruct (parse_queries response_text) as [q|].
  - destruct (py_iter q) as [queries|].
    + destruct (queries_loop max_projects (List.length queries) queries 1 [] w1)
        as [[[all_projects|e] w2] ev] eqn:Eq;
        apply queries_loop_runs in Eq.
      * exists (opening user_prompt response_text
                ++ [Log DEBUG (MsgQueriesResponse response_text);
                    Log INFO (MsgGenerated (List.length queries))])%list,
          ev, (closing all_projects).
        destruct (Hlogs [Log DEBUG (MsgQueriesResponse response_text);
                         Log INFO (MsgGenerated (List.length queries))]
                    eq_refl) as [Hc Hn].
        repeat apply conj; try assumption.
        -- cbn [events_of snd]. now rewrite <- !app_assoc.
        -- right. left. exists all_projects. auto.
      * exists (opening user_prompt response_text
                ++ [Log DEBUG (MsgQueriesResponse response_text);
                    Log INFO (MsgGenerated (List.length queries))])%list,
          ev, [].
        destruct (Hlogs [Log DEBUG (MsgQueriesResponse response_text);
                         Log INFO (MsgGenerated (List.length queries))]
                    eq_refl) as [Hc Hn].
        repeat apply conj; try assumption.
        -- cbn [events_of snd]. now rewrite <- !app_assoc, app_nil_r.
        -- right. right. exists e. auto.
    + exists (opening user_prompt response_text
              ++ [Log DEBUG (MsgQueriesResponse response_text)])%list, [], [].
      destruct (Hlogs [Log DEBUG (MsgQueriesResponse response_text)]
                  eq_refl) as [Hc Hn].
      repeat apply conj; try assumption.
      * cbn [events_of snd]. now rewrite !app_nil_r.
      * left. auto.
  - exists (opening user_prompt response_text
            ++ [Log ERROR MsgQueriesUnparsed])%list, [], [].
    destruct (Hlogs [Log ERROR MsgQueriesUnparsed]
                eq_refl) as [Hc Hn].
    repeat apply conj; try assumption.
    + cbn [events_of snd]. now rewrite !app_nil_r.
    + left. auto.
Qed.

End WholeRuns.

(** ** Targets that begin with [http] *)

Section HttpTargets.

Lemma prefix_cons (a b : ascii) (p s : string) :
  prefix (String a p) (String b s) = ((b =? a)%char && prefix p s).
Proof.
  cbn [prefix]. destruct (ascii_dec a b) as [<-|N].
  - now rewrite Ascii.eqb_refl.
  - assert (Hb : (b =? a)%char = false)
      by (apply Ascii.eqb_neq; congruence).
    now rewrite Hb.
Qed.

Lemma begins_http_startswith (href : string) :
  startswith "http" href = begins_http href.
Proof.
  unfold startswith, begins_http.
  assert (Hnil : forall s, prefix "" s = true) by (now intros []).
  destruct href as [|a [|b [|c [|d rest]]]];
    rewrite ?prefix_cons, ?Hnil; cbn [prefix];
    rewrite ?andb_false_r, ?andb_true_r, ?andb_assoc; reflexivity.
Qed.

Lemma qualify_unless_http (href : string) :
  qualify href = origin_unless_http href.
Proof.
  unfold qualify, origin_unless_http. now rewrite begins_http_startswith.
Qed.

End HttpTargets.

(** * The claims *)

(** C5.  A response that is the text of a JSON array gives the same
    list whether it comes bare or between the fences [```json] and
    [```]: the parsing step of the query generator takes the fences
    off and decodes what is between them.  The decoder is any one
    that, like [json.loads], reads as arrays only texts in brackets
    with JSON white space around. *)
Theorem fenced_response_parses_alike `{Externals} (r : string) (l : list json) :
  (forall s l', json_loads s = Some (JArr l') -> array_text s) ->
  json_loads r = Some (JArr l) ->
  parse_queries (fenced r) = parse_queries r
  /\ parse_queries r = Some (JArr l).
Proof.
  intros Hshape Hr. unfold parse_queries.
  rewrite strip_fences_fenced.
  destruct (array_text_unfenced r (Hshape r l Hr)) as [Hp Hs].
  rewrite (strip_fences_unfenced r Hp Hs). auto.
Qed.

Lemma fenced_response_parses_alike_witness :
  @parse_queries (scripted uneven_records)
    (fenced ("[" ++ quoted "https://www.findaphd.com/phds/?Keywords=ai" ++ "]"))
  = Some (JArr [JStr "https://www.findaphd.com/phds/?Keywords=ai"]).
Proof.
  destruct (@fenced_response_parses_alike (scripted uneven_records)
              ("[" ++ quoted "https://www.findaphd.com/phds/?Keywords=ai" ++ "]")
              [JStr "https://www.findaphd.com/phds/?Keywords=ai"])
    as [Hsame Hbare].
  - exact loads_array_text.
  - vm_compute. reflexivity.
  - rewrite Hsame. exact Hbare.
Defined.

(** C3.  For a text blob that is empty or shorter than the minimum of
    50 characters, [extract_project_info] gives [None] and issues two
    log lines and nothing else: no completion request is made and the
    world is as it was. *)
Theorem short_blob_skips_model `{Externals}
  (text_blob project_url : string) (w : World) :
  text_blob = "" \/ length text_blob < min_blob_length ->
  run (extract_project_info text_blob project_url) w
  = (Ret JNull, w,
     [Log INFO MsgExtractingInfo; Log WARNING MsgBlobTooShort])
  /\ filter is_completion
       (events_of (run (extract_project_info text_blob project_url) w)) = [].
Proof.
  intros Hshort.
  assert (Hrun : run (extract_project_info text_blob project_url) w
                 = (Ret JNull, w,
                    [Log INFO MsgExtractingInfo; Log WARNING MsgBlobTooShort])).
  { unfold run, extract_project_info.
    replace ((text_blob =? "") || (length text_blob <? min_blob_length)%nat)
      with true; [reflexivity|].
    symmetry. apply orb_true_iff. destruct Hshort as [->|Hlt].
    - now left.
    - right. now apply Nat.ltb_lt. }
  rewrite Hrun. split; reflexivity.
Qed.

Lemma short_blob_skips_model_witness :
  length "Too short." < min_blob_length
  /\ @run (scripted uneven_records) _
       (extract_project_info "Too short." "https://www.findaphd.com/phds/x") 0
     = (Ret JNull, 0,
        [Log INFO MsgExtractingInfo; Log WARNING MsgBlobTooShort]).
Proof.
  split.
  - vm_compute. lia.
  - apply (@short_blob_skips_model (scripted uneven_records)
             "Too short." "https://www.findaphd.com/phds/x" 0).
    right. vm_compute. lia.
Defined.

(** C6.  When the answer to the query prompt does not decode (after
    the fences are taken off), [main_agent] returns at once: its events
    are the opening ones and one error line, so no page is fetched, no
    query is worked on, no record is accepted and no CSV file is
    written; the one model call made is the query generation. *)
Theorem unparsed_queries_abort `{Externals}
  (user_prompt : string) (max_projects : option Z) (w : World) :
  let answer := completions_create (query_prompt user_prompt) w in
  parse_queries (fst answer) = None ->
  let r := run (main_agent user_prompt max_projects) w in
  r = (Ret None, snd answer,
       (opening user_prompt (fst answer)
        ++ [Log ERROR MsgQueriesUnparsed])%list)
  /\ (forall e, In e (events_of r) ->
        match e with
        | Get _ => False
        | Log _ (MsgQuery _ _ _) => False
        | _ => True
        end)
  /\ accepted (events_of r) = 0
  /\ csv_writes (events_of r) = [].
Proof.
  intros answer Hparse r.
  assert (Hr : r = (Ret None, snd answer,
                    (opening user_prompt (fst answer)
                     ++ [Log ERROR MsgQueriesUnparsed])%list)).
  { subst r. unfold run. rewrite main_agent_run. subst answer.
    destruct (completions_create (query_prompt user_prompt) w)
      as [response_text w1].
    cbn [fst snd] in *. cbv zeta. now rewrite Hparse. }
  rewrite Hr. repeat apply conj; try reflexivity.
  intros e He. cbn in He.
  repeat (destruct He as [<-|He]; [exact I|]). destruct He.
Qed.

Lemma unparsed_queries_abort_witness :
  result_of (sample_run no_queries (Some 5%Z)) = Ret None
  /\ csv_writes (events_of (sample_run no_queries (Some 5%Z))) = [].
Proof.
  destruct (@unparsed_queries_abort (scripted no_queries) "ai" (Some 5%Z) 0)
    as (Hr & _ & _ & Hcsv).
  - vm_compute. reflexivity.
  - split.
    + unfold sample_run. rewrite Hr. reflexivity.
    + exact Hcsv.
Defined.

(** C4.  For a settings file that holds a JSON object, [load_config]
    looks at the three required names in order.  If some are absent or
    empty, it raises the [ValueError] whose message lists exactly
    those, separated by commas; a name is listed if and only if it is
    required and absent or empty.  If none is, it returns the three
    values, each present and not empty. *)
Theorem load_config_names_missing `{Externals}
  (text : string) (config : dict) (w : World) :
  json_loads text = Some (JObj config) ->
  let missing := filter (absent_or_empty config) required_fields in
  let r := result_of (run (load_config (Some text)) w) in
  (missing <> [] ->
   r = Raise (ValueError ("Missing required configuration fields: "
                          ++ join ", " missing)))
  /\ (missing = [] ->
      exists api_key api_base model_name,
        r = Ret (api_key, api_base, model_name)
        /\ dict_get "api_key" config = Some api_key
        /\ dict_get "api_base" config = Some api_base
        /\ dict_get "model_name" config = Some model_name
        /\ truthy api_key = true /\ truthy api_base = true
        /\ truthy model_name = true)
  /\ (forall field,
        In field missing
        <-> In field required_fields /\ absent_or_empty config field = true).
Proof.
  intros Hj missing r. subst r. rewrite (load_config_object _ _ _ Hj).
  fold missing. repeat apply conj.
  - destruct missing; [now intros N | reflexivity].
  - intros Hnone. rewrite Hnone.
    exists (setting config "api_key"), (setting config "api_base"),
      (setting config "model_name").
    subst missing. unfold required_fields in Hnone. cbn [filter] in Hnone.
    destruct (absent_or_empty config "api_key") eqn:E1; [discriminate|].
    destruct (absent_or_empty config "api_base") eqn:E2; [discriminate|].
    destruct (absent_or_empty config "model_name") eqn:E3; [discriminate|].
    destruct (present_setting _ _ E1), (present_setting _ _ E2),
      (present_setting _ _ E3).
    repeat split; assumption.
  - intros field. subst missing. apply filter_In.
Qed.

Lemma load_config_names_missing_witness :
  MiniJson.loads settings_text
  = Some (JObj [("api_key", JStr "sk-1"); ("api_base", JStr "")])
  /\ result_of (@run (scripted no_queries) _
                  (load_config (Some settings_text)) 0)
     = Raise (ValueError
                "Missing required configuration fields: api_base, model_name").
Proof.
  split.
  - vm_compute. reflexivity.
  - apply (@load_config_names_missing (scripted no_queries) settings_text
             [("api_key", JStr "sk-1"); ("api_base", JStr "")] 0).
    + vm_compute. reflexivity.
    + vm_compute. discriminate.
Defined.


(** C1, as claimed, fails for a cap of 0: the run below is given the
    cap 0 and ends with two accepted records. *)
Lemma zero_cap_is_exceeded :
  exists all_projects,
    result_of (sample_run uneven_records (Some 0%Z)) = Ret (Some all_projects)
    /\ (Z.of_nat (List.length all_projects) > 0)%Z
    /\ accepted (events_of (sample_run uneven_records (Some 0%Z))) = 2.
Proof.
  eexists. split; [vm_compute; reflexivity|]. split; vm_compute; reflexivity.
Qed.

(** C1, as amended: with a record cap of at least 1, the records a run
    accepts never number more than the cap, the list it returns has
    exactly the accepted records, and wherever the events of the run
    are cut, if the cap was reached before the cut then nothing is
    worked on after it: no page is fetched, no model call is made, and
    neither a link nor a query is begun. *)
Theorem record_cap_holds `{Externals}
  (user_prompt : string) (c : Z) (w : World) :
  (1 <= c)%Z ->
  let r := run (main_agent user_prompt (Some c)) w in
  (forall all_projects,
     result_of r = Ret (Some all_projects) ->
     (Z.of_nat (List.length all_projects) <= c)%Z
     /\ List.length all_projects = accepted (events_of r))
  /\ (Z.of_nat (accepted (events_of r)) <= c)%Z
  /\ (forall pre post,
        events_of r = (pre ++ post)%list ->
        (c <= Z.of_nat (accepted pre))%Z ->
        forall e, In e post -> is_work e = false).
Proof.
  intros Hc r. destruct (main_agent_capped c Hc user_prompt w)
    as (Hcap & Hacc & Hlen).
  fold r in Hcap, Hacc, Hlen. repeat apply conj.
  - intros rs Hr. specialize (Hlen rs Hr). split; [lia | exact Hlen].
  - lia.
  - intros pre post Hcut Hreached e He. rewrite Hcut in Hcap.
    pose proof (capped_cut (Z.to_nat c) pre post 0 Hcap) as Hq.
    cbn [Nat.add] in Hq.
    assert (Hn : Z.to_nat c <= accepted pre) by lia.
    specialize (Hq Hn). rewrite forallb_forall in Hq.
    apply negb_true_iff. now apply Hq.
Qed.

Lemma record_cap_holds_witness :
  (1 <= 1)%Z
  /\ (Z.of_nat (accepted (events_of (sample_run uneven_records (Some 1%Z))))
      <= 1)%Z.
Proof.
  split; [lia|].
  apply (@record_cap_holds (scripted uneven_records) "ai" 1%Z 0). lia.
Defined.

(** C7, as claimed, fails on the columns: the run below accepts two
    records, the first with the keys [title] and [url], and writes a
    CSV file with a third column, [deadline], that only the second
    record has. *)
Lemma columns_beyond_first_record :
  exists first rest rows,
    result_of (sample_run uneven_records None) = Ret (Some (first :: rest))
    /\ keys first = ["title"; "url"]
    /\ csv_writes (events_of (sample_run uneven_records None))
       = [ToCsv csv_path ["title"; "url"; "deadline"] rows].
Proof.
  do 3 eexists. split; [vm_compute; reflexivity|].
  split; vm_compute; reflexivity.
Qed.

(** C7, as amended: a run writes the CSV file exactly when it ends
    normally with at least one accepted record, and then once, at the
    end; a run that accepted nothing, or was aborted, writes nothing.
    The list a run returns has the accepted records, each with its
    [url].  The columns are the keys of the first record, followed by
    the keys that later records add, each where it is first seen. *)
Theorem csv_written_for_records `{Externals}
  (user_prompt : string) (max_projects : option Z) (w : World) :
  let r := run (main_agent user_prompt max_projects) w in
  csv_writes (events_of r)
  = match result_of r with
    | Ret (Some (first :: rest)) =>
        let columns := DataFrame_columns (first :: rest) in
        [ToCsv csv_path columns (DataFrame_rows columns (first :: rest))]
    | _ => []
    end
  /\ (forall all_projects,
        result_of r = Ret (Some all_projects) ->
        List.length all_projects = accepted (events_of r)
        /\ forallb has_url all_projects = true)
  /\ (forall first rest,
        DataFrame_columns (first :: rest)
        = (dedup_first (keys first)
           ++ filter (fun k => negb (mem k (keys first)))
                (dedup_first (flat_map keys rest)))%list).
Proof.
  intros r.
  destruct (main_agent_course user_prompt max_projects w)
    as (start & ev & finish & Hev & Hcalm & _ & Hcourse).
  fold r in Hev, Hcourse. rewrite Hev.
  rewrite !csv_writes_app, !accepted_app.
  rewrite (calm_csv_writes _ Hcalm), (calm_accepted _ Hcalm).
  repeat apply conj.
  - destruct Hcourse as [(-> & -> & Hr)
                        |[(rs & Hq & Hr & ->)|(e & Hq & Hr & ->)]].
    + now destruct Hr as [-> | ->].
    + rewrite Hr. apply queries_run_keeps in Hq as (Hcsv & _ & _).
      rewrite Hcsv. destruct (closing_events rs) as (_ & _ & Hc).
      rewrite Hc. now destruct rs.
    + rewrite Hr. apply queries_run_keeps in Hq as (Hcsv & _ & _).
      now rewrite Hcsv.
  - intros rs' Hr'.
    destruct Hcourse as [(-> & -> & Hr)
                        |[(rs & Hq & Hr & ->)|(e & Hq & Hr & ->)]].
    + destruct Hr as [Hr | Hr]; rewrite Hr in Hr'; discriminate.
    + rewrite Hr in Hr'. injection Hr' as <-.
      apply queries_run_keeps in Hq as (_ & Hret & _).
      destruct (Hret rs eq_refl) as (_ & new & -> & Hn & Hu).
      destruct (closing_events ([] ++ new)) as (Hc & _ & _).
      rewrite Hc. cbn [app]. split; [lia | exact Hu].
    + rewrite Hr in Hr'. discriminate.
  - intros first rest. rewrite DataFrame_columns_dedup.
    cbn [flat_map]. apply dedup_first_app.
Qed.

Lemma csv_written_for_records_witness :
  List.length
    (match result_of (sample_run uneven_records (Some 1%Z)) with
     | Ret (Some all_projects) => all_projects
     | _ => []
     end)
  = accepted (events_of (sample_run uneven_records (Some 1%Z))).
Proof.
  destruct (@csv_written_for_records (scripted uneven_records) "ai"
              (Some 1%Z) 0) as (_ & Hrecords & _).
  destruct (Hrecords
              [[("title", JStr "Walking robots");
                ("url", JStr "https://www.findaphd.com/phds/project/robots")]])
    as [Hlen _].
  - vm_compute. reflexivity.
  - vm_compute. reflexivity.
Defined.

(** C10, as claimed, fails for an answer that decodes to a value which
    is no object but false in Python: in the run below the model
    answers the first project with the empty array; the link is passed
    over, the run goes on, accepts the second project and writes the
    CSV file. *)
Lemma empty_array_answer_is_skipped :
  exists text_blob all_projects,
    In (Completion (extraction_prompt text_blob) "[]")
       (events_of (sample_run empty_array_answer None))
    /\ MiniJson.loads "[]" = Some (JArr [])
    /\ is_object (JArr []) = false
    /\ result_of (sample_run empty_array_answer None) = Ret (Some all_projects)
    /\ List.length all_projects = 1
    /\ List.length (csv_writes (events_of (sample_run empty_array_answer None)))
       = 1.
Proof.
  exists "A funded project on robots that learn to walk on uneven ground.".
  eexists. split.
  - vm_compute. repeat (first [left; reflexivity | right]).
  - repeat split; vm_compute; reflexivity.
Qed.

(** C10, as amended: if the model answers a call of the field
    extractor with a text that decodes to a value which is no object
    and which Python takes for true (an array or a string that is not
    empty, a number other than zero, [true]), the run ends in an
    uncaught [TypeError] and writes no CSV file. *)
Theorem wrong_shape_aborts_run `{Externals}
  (user_prompt : string) (max_projects : option Z) (w : World)
  (text_blob response : string) (v : json) :
  let r := run (main_agent user_prompt max_projects) w in
  In (Completion (extraction_prompt text_blob) response) (events_of r) ->
  json_loads response = Some v ->
  is_object v = false ->
  truthy v = true ->
  result_of r = Raise TypeError /\ csv_writes (events_of r) = [].
Proof.
  intros r Hin Hj Ho Ht.
  assert (Hw : wrong_shape v = true) by (unfold wrong_shape; now rewrite Ht, Ho).
  destruct (main_agent_course user_prompt max_projects w)
    as (start & ev & finish & Hev & Hcalm & Hstart & Hcourse).
  fold r in Hev, Hcourse. rewrite Hev in Hin |- *.
  apply in_app_or in Hin as [Hin|Hin]; [now apply Hstart in Hin|].
  apply in_app_or in Hin.
  destruct Hcourse as [(-> & -> & Hr)
                      |[(rs & Hq & Hr & ->)|(e & Hq & Hr & ->)]].
  - now destruct Hin.
  - apply queries_run_keeps in Hq as (_ & Hret & _).
    destruct (Hret rs eq_refl) as (Hb & _).
    destruct Hin as [Hin|Hin].
    + rewrite (bad_completion_found _ _ _ _ Hin Hj Hw) in Hb. discriminate.
    + destruct (closing_events rs) as (_ & Hnone & _).
      now apply Hnone in Hin.
  - apply queries_run_keeps in Hq as (Hcsv & _ & Hraise).
    destruct (Hraise e eq_refl) as (-> & _). split; [exact Hr|].
    now rewrite !csv_writes_app, (calm_csv_writes _ Hcalm), Hcsv.
Qed.

Lemma wrong_shape_aborts_run_witness :
  result_of (sample_run array_answer None) = Raise TypeError
  /\ csv_writes (events_of (sample_run array_answer None)) = [].
Proof.
  apply (@wrong_shape_aborts_run (scripted array_answer) "ai" None 0
           "A funded project on proteins and how they fold in living cells."
           ("[" ++ quoted "Folding proteins" ++ "]")
           (JArr [JStr "Folding proteins"])).
  - vm_compute. repeat (first [left; reflexivity | right]).
  - vm_compute. reflexivity.
  - reflexivity.
  - reflexivity.
Defined.

(** C2, as claimed, fails on what it calls relative: the page below
    links [HTTP://x.org/phds/3], which names its scheme and is not
    relative, and [httpdocs/phds/5], which is relative.  The first
    comes back behind the origin of the site and the second bare,
    since line 140 asks only whether the target starts with [http]. *)
Lemma absolute_target_is_prefixed :
  is_relative "HTTP://x.org/phds/3" = false
  /\ is_relative "httpdocs/phds/5" = true
  /\ result_of (@run (scripted mixed_targets) _
                  (get_project_links
                     (JStr "https://www.findaphd.com/phds/?Keywords=mixed")) 0)
     = Ret [ "https://www.findaphd.comHTTP://x.org/phds/3";
             "httpdocs/phds/5" ]
  /\ dedup_first
       (map origin_if_relative
          (filter (contains listings_marker)
             (flat_map hyperlink_targets mixed_targets_page)))
     = [ "HTTP://x.org/phds/3";
         "https://www.findaphd.comhttpdocs/phds/5" ].
Proof. repeat split; vm_compute; reflexivity. Qed.

(** C2, as amended: when the results page is fetched,
    [get_project_links] returns the targets of the page's hyperlink
    elements that hold the marker [/phds/], each behind the origin of
    the site unless it begins with [http], without repeats and in the
    order in which they are first seen: what is seen first stays in
    front however the page goes on.  On a page whose targets begin
    with [http] exactly when they name a scheme, these are the
    relative targets behind the origin and the others as they are. *)
Theorem harvest_links_first_seen `{Externals}
  (search_url : json) (w : World) (text : string) (w' : World) :
  requests_get search_url get_headers 10 w = (Some text, w') ->
  let targets := flat_map hyperlink_targets (BeautifulSoup text) in
  let marked := filter (contains listings_marker) targets in
  let wanted := map origin_unless_http marked in
  let links := harvest_links (BeautifulSoup text) in
  result_of (run (get_project_links search_url) w) = Ret links
  /\ links = dedup_first wanted
  /\ NoDup links
  /\ (forall url, In url links <-> In url wanted)
  /\ (forall seen later,
        wanted = (seen ++ later)%list ->
        exists more, links = (dedup_first seen ++ more)%list)
  /\ ((forall href, In href marked -> begins_http href = has_scheme href) ->
      links = dedup_first (map origin_if_relative marked)).
Proof.
  intros Hget targets marked wanted links.
  assert (Hlinks : links = dedup_first wanted).
  { subst links wanted marked targets. unfold harvest_links, soup_find_all.
    rewrite link_steps, fold_add_column_dedup, flat_map_flat_map.
    f_equal. rewrite (map_ext _ _ qualify_unless_http). do 2 f_equal.
    apply flat_map_Forall_ext, Forall_forall.
    intros n _. apply find_all_targets. }
  repeat apply conj.
  - unfold run, get_project_links, bind, http_get, log, emit, ret.
    rewrite Hget. reflexivity.
  - exact Hlinks.
  - rewrite Hlinks. apply NoDup_dedup_first.
  - intros url. rewrite Hlinks. apply In_dedup_first.
  - intros seen later Hw. rewrite Hlinks, Hw. apply dedup_first_prefix.
  - intros Hagree. rewrite Hlinks. subst wanted. f_equal.
    apply map_ext_in. intros href Hin.
    unfold origin_unless_http, origin_if_relative, is_relative.
    rewrite (Hagree href Hin). now destruct (has_scheme href).
Qed.

Lemma harvest_links_first_seen_witness :
  result_of (@run (scripted uneven_records) _
               (get_project_links
                  (JStr "https://www.findaphd.com/phds/?Keywords=ai")) 0)
  = Ret [ "https://www.findaphd.com/phds/project/robots";
          "https://www.findaphd.com/phds/project/proteins" ].
Proof.
  apply (@harvest_links_first_seen (scripted uneven_records)
           (JStr "https://www.findaphd.com/phds/?Keywords=ai") 0
           "results" 1).
  vm_compute. reflexivity.
Defined.

(** C8.  When the project page is fetched, [get_clean_text] returns
    the texts of the paragraphs, headings of level 1 to 4 and list
    items that lie outside every script, style, nav, footer and header
    element, those longer than 10 characters only, in document order
    with a line feed between them.  In particular, of a paragraph of 5
    characters and a paragraph of 50 characters (neither with white
    space at its ends) the second alone is kept. *)
Theorem clean_text_keeps_long_fragments `{Externals}
  (project_url : string) (w : World) (text : string) (w' : World) :
  requests_get (JStr project_url) get_headers 10 w = (Some text, w') ->
  result_of (run (get_clean_text project_url) w)
  = Ret (clean_text_of (BeautifulSoup text))
  /\ (forall soup,
        clean_text_of soup
        = join nl (filter is_long (flat_map visible_fragments soup)))
  /\ (forall short long,
        strip short = short -> length short = 5 ->
        strip long = long -> length long = 50 ->
        clean_text_of [paragraph short; paragraph long] = long).
Proof.
  intros Hget.
  assert (Hall : forall soup,
            clean_text_of soup
            = join nl (filter is_long (flat_map visible_fragments soup))).
  { intros soup. unfold clean_text_of. now rewrite text_elements_fragments. }
  repeat apply conj.
  - unfold run, get_clean_text, bind, http_get, log, emit, ret.
    rewrite Hget. reflexivity.
  - exact Hall.
  - intros short long Ss Ls Sl Ll. rewrite Hall.
    assert (Hp : forall t, strip t = t -> t <> "" ->
                           visible_fragments (paragraph t) = [t]).
    { intros t St Nt. unfold paragraph.
      cbn [visible_fragments visible_strings flat_map app].
      change (mem "p" noise_tags) with false.
      change (mem "p" content_tags) with true.
      rewrite St. apply String.eqb_neq in Nt. rewrite Nt.
      reflexivity. }
    cbn [flat_map]. rewrite !Hp; try assumption.
    + cbn [app filter]. unfold is_long. rewrite Ls, Ll. reflexivity.
    + intros ->. discriminate.
    + intros ->. discriminate.
Qed.

Lemma clean_text_keeps_long_fragments_witness :
  result_of (@run (scripted uneven_records) _
               (get_clean_text "https://www.findaphd.com/phds/project/robots")
               0)
  = Ret "A funded project on robots that learn to walk on uneven ground."
  /\ clean_text_of
       [ paragraph "Apply";
         paragraph "A funded project on how robots may learn to climb." ]
     = "A funded project on how robots may learn to climb.".
Proof.
  destruct (@clean_text_keeps_long_fragments (scripted uneven_records)
              "https://www.findaphd.com/phds/project/robots" 0 "robots" 1)
    as (Hrun & _ & Hpair).
  - vm_compute. reflexivity.
  - split.
    + rewrite Hrun. vm_compute. reflexivity.
    + apply Hpair; vm_compute; reflexivity.
Defined.

(** * Further properties of the program *)

(** ** The settings, whatever the file holds *)

Section AnySettings.

Context `{E : Externals}.

Lemma field_missing_non_object (config : json) (field : string) :
  is_object config = false ->
  field_missing config field
  = match py_contains field config with
    | Some false => Ret true
    | _ => Raise TypeError
    end.
Proof.
  intros Ho. unfold field_missing.
  destruct (py_contains field config) as [[|]|]; try reflexivity.
  destruct config; try reflexivity. discriminate.
Qed.

Lemma missing_fields_non_object (config : json) (fields : list string) :
  is_object config = false ->
  missing_fields_of config fields
  = if forallb (fun field =>
                  match py_contains field config with
                  | Some false => true
                  | _ => false
                  end) fields
    then Ret fields else Raise TypeError.
Proof.
  intros Ho. induction fields as [|f fields IH]; [reflexivity|].
  cbn [missing_fields_of forallb].
  rewrite (field_missing_non_object _ _ Ho), IH.
  destruct (py_contains f config) as [[|]|]; try reflexivity.
  cbn [andb]. now destruct (forallb _ fields).
Qed.

Lemma load_config_decoded (text : string) (config : json) (w : World) :
  json_loads text = Some config ->
  result_of (run (load_config (Some text)) w)
  = match missing_fields_of config required_fields with
    | Raise e => Raise e
    | Ret [] =>
        match config_get config "api_key", config_get config "api_base",
              config_get config "model_name" with
        | Ret k, Ret b, Ret m => Ret (k, b, m)
        | Raise e, _, _ => Raise e
        | _, Raise e, _ => Raise e
        | _, _, Raise e => Raise e
        end
    | Ret (name :: names) =>
        Raise (ValueError ("Missing required configuration fields: "
                           ++ join ", " (name :: names)))
    end.
Proof.
  intros Hj. unfold run, load_config, try_except, bind. rewrite Hj.
  cbn [ret].
  destruct (missing_fields_of config required_fields) as [[|name names]|e];
    try reflexivity.
  cbn [lift ret].
  destruct (config_get config "api_key") as [k|e1]; [|reflexivity].
  destruct (config_get config "api_base") as [b|e2]; [|reflexivity].
  destruct (config_get config "model_name") as [m|e3]; reflexivity.
Qed.

Lemma load_config_non_object (text : string) (config : json) (w : World) :
  json_loads text = Some config ->
  is_object config = false ->
  exists e, result_of (run (load_config (Some text)) w) = Raise e.
Proof.
  intros Hj Ho. rewrite (load_config_decoded _ _ _ Hj).
  rewrite (missing_fields_non_object _ _ Ho).
  destruct (forallb _ required_fields); cbn; eauto.
Qed.

End AnySettings.

(** X2.  A settings file that decodes to something other than an object
    never gives a configuration.  If none of the three names is [in]
    the value (a list or a string without them), all three count as
    missing and the [ValueError] names them all; otherwise (a number,
    a boolean, [null], or a list or string that holds a name) the
    check itself fails with a [TypeError]. *)
Theorem load_config_rejects_non_object `{Externals}
  (text : string) (config : json) (w : World) :
  json_loads text = Some config ->
  is_object config = false ->
  result_of (run (load_config (Some text)) w)
  = if holds_no_name config
    then Raise (ValueError
                  "Missing required configuration fields: api_key, api_base, model_name")
    else Raise TypeError.
Proof.
  intros Hj Ho. rewrite (load_config_decoded _ _ _ Hj).
  rewrite (missing_fields_non_object _ _ Ho). fold (holds_no_name config).
  now destruct (holds_no_name config).
Qed.

Lemma load_config_rejects_non_object_witness :
  result_of (@run (scripted no_queries) _
               (load_config (Some ("[" ++ quoted "api_key" ++ "]"))) 0)
  = Raise TypeError
  /\ result_of (@run (scripted no_queries) _ (load_config (Some "[]")) 0)
     = Raise (ValueError
                "Missing required configuration fields: api_key, api_base, model_name").
Proof.
  split.
  - apply (@load_config_rejects_non_object (scripted no_queries)
             ("[" ++ quoted "api_key" ++ "]") (JArr [JStr "api_key"]) 0);
      vm_compute; reflexivity.
  - apply (@load_config_rejects_non_object (scripted no_queries)
             "[]" (JArr []) 0); vm_compute; reflexivity.
Defined.

(** X1.  [load_config] returns three values only for a file that is
    there and decodes to an object in which all three names have a
    value Python takes for true, and then it returns exactly those
    values; in every other case it raises. *)
Theorem load_config_returns_valid `{Externals}
  (file : option string) (w : World) (api_key api_base model_name : json) :
  result_of (run (load_config file) w) = Ret (api_key, api_base, model_name)
  <-> exists text config,
        file = Some text
        /\ json_loads text = Some (JObj config)
        /\ dict_get "api_key" config = Some api_key
        /\ dict_get "api_base" config = Some api_base
        /\ dict_get "model_name" config = Some model_name
        /\ truthy api_key = true /\ truthy api_base = true
        /\ truthy model_name = true.
Proof.
  split.
  - destruct file as [text|]; [|discriminate].
    destruct (json_loads text) as [config|] eqn:Hj.
    + destruct (is_object config) eqn:Ho.
      * destruct config as [| | | | | |d]; try discriminate.
        rewrite (load_config_object _ _ _ Hj).
        unfold required_fields. cbn [filter].
        destruct (absent_or_empty d "api_key") eqn:E1; [discriminate|].
        destruct (absent_or_empty d "api_base") eqn:E2; [discriminate|].
        destruct (absent_or_empty d "model_name") eqn:E3; [discriminate|].
        intros [= <- <- <-].
        destruct (present_setting _ _ E1), (present_setting _ _ E2),
          (present_setting _ _ E3).
        exists text, d. repeat split; assumption.
      * destruct (load_config_non_object _ _ w Hj Ho) as [e ->].
        discriminate.
    + unfold run, load_config, try_except, bind. rewrite Hj. discriminate.
  - intros (text & config & -> & Hj & Hk & Hb & Hm & Tk & Tb & Tm).
    rewrite (load_config_object _ _ _ Hj).
    unfold required_fields, absent_or_empty, setting. cbn [filter].
    rewrite Hk, Hb, Hm, Tk, Tb, Tm. reflexivity.
Qed.

Lemma load_config_returns_valid_witness :
  result_of (@run (scripted no_queries) _
               (load_config (Some full_settings_text)) 0)
  = Ret (JStr "sk-1", JStr "https://api.example.org/v1", JStr "m-1").
Proof.
  apply (@load_config_returns_valid (scripted no_queries)).
  exists full_settings_text,
    [("api_key", JStr "sk-1");
     ("api_base", JStr "https://api.example.org/v1");
     ("model_name", JStr "m-1")].
  repeat split; vm_compute; reflexivity.
Defined.

(** ** The two fetches *)

Section Fetches.

Lemma contains_append (needle before hay : string) :
  contains needle hay = true -> contains needle (before ++ hay) = true.
Proof.
  intros H. induction before as [|c before IH]; [exact H|].
  cbn [append contains]. rewrite IH. apply orb_true_r.
Qed.

Lemma harvest_links_dedup (soup : list node) :
  harvest_links soup
  = dedup_first
      (map qualify
         (filter (contains listings_marker)
            (flat_map hyperlink_targets soup))).
Proof.
  unfold harvest_links, soup_find_all.
  rewrite link_steps, fold_add_column_dedup, flat_map_flat_map.
  do 3 f_equal. apply flat_map_Forall_ext, Forall_forall.
  intros n _. apply find_all_targets.
Qed.

Lemma join_nil_iff (sep : string) (l : list string) :
  Forall (fun t => t <> "") l -> (join sep l = "" <-> l = []).
Proof.
  intros Hl. split; [|now intros ->].
  destruct l as [|x l]; [reflexivity|].
  inversion Hl as [|? ? Hx _]; subst.
  destruct x as [|c x]; [now elim Hx|].
  unfold join. cbn [concat]. destruct l; discriminate.
Qed.

Lemma join_empty_cons (x : string) (l : list string) :
  join "" (x :: l) = x ++ join "" l.
Proof.
  unfold join. destruct l as [|y l]; cbn [concat].
  - now rewrite append_nil_r.
  - reflexivity.
Qed.

Lemma join_empty_app (a b : list string) :
  join "" (a ++ b) = join "" a ++ join "" b.
Proof.
  induction a as [|x a IH]; [reflexivity|].
  cbn [app]. now rewrite !join_empty_cons, IH, append_assoc.
Qed.

End Fetches.

(** X3.  Each of the two fetching functions makes exactly one HTTP
    request.  When the request fails (a [RequestException]) the
    function does not pause and gives the empty list (links) or the
    empty string (text); when the request succeeds the function pauses
    once, for 3 seconds. *)
Theorem fetch_once_then_pause `{Externals}
  (search_url : json) (project_url : string) (w : World) :
  (let r := run (get_project_links search_url) w in
   filter is_get (events_of r) = [Get search_url]
   /\ world_of r = snd (requests_get search_url get_headers 10 w)
   /\ match fst (requests_get search_url get_headers 10 w) with
      | Some _ => filter is_sleep (events_of r) = [Sleep 3]
      | None =>
          result_of r = Ret [] /\ filter is_sleep (events_of r) = []
      end)
  /\ (let r := run (get_clean_text project_url) w in
      filter is_get (events_of r) = [Get (JStr project_url)]
      /\ world_of r = snd (requests_get (JStr project_url) get_headers 10 w)
      /\ match fst (requests_get (JStr project_url) get_headers 10 w) with
         | Some _ => filter is_sleep (events_of r) = [Sleep 3]
         | None =>
             result_of r = Ret "" /\ filter is_sleep (events_of r) = []
         end).
Proof.
  split.
  - unfold run, get_project_links, bind, http_get, log, emit, ret.
    destruct (requests_get search_url get_headers 10 w) as [[text|] w'];
      cbn; auto.
  - unfold run, get_clean_text, bind, http_get, log, emit, ret.
    destruct (requests_get (JStr project_url) get_headers 10 w)
      as [[text|] w']; cbn; auto.
Qed.

(** X4.  Every link [get_project_links] takes from a page starts with
    [http] and holds the marker [/phds/]: what the orchestrator goes on
    to fetch is never a bare path. *)
Theorem harvested_links_are_listing_urls (soup : list node) (url : string) :
  In url (harvest_links soup) ->
  startswith "http" url = true /\ contains listings_marker url = true.
Proof.
  rewrite harvest_links_dedup, In_dedup_first, in_map_iff.
  intros (href & <- & Hin). apply filter_In in Hin as [_ Hm].
  unfold qualify. destruct (startswith "http" href) eqn:Hs.
  - now rewrite Hs.
  - split; [reflexivity|]. now apply contains_append.
Qed.

Lemma harvested_links_are_listing_urls_witness :
  startswith "http" "https://www.findaphd.com/phds/project/proteins" = true
  /\ contains listings_marker "https://www.findaphd.com/phds/project/proteins"
     = true.
Proof.
  apply (harvested_links_are_listing_urls results_page).
  vm_compute. right. left. reflexivity.
Defined.

(** X5.  Every fragment the text extractor keeps is longer than 10
    characters, so the text it returns is empty exactly when no
    fragment is kept: the case in which the orchestrator passes the
    link over. *)
Theorem clean_text_empty_iff_no_fragment (soup : list node) :
  Forall (fun text => 10 < length text) (text_elements_of soup)
  /\ (clean_text_of soup = "" <-> text_elements_of soup = []).
Proof.
  assert (Hlong : Forall (fun text => 10 < length text)
                    (text_elements_of soup)).
  { rewrite text_elements_fragments. apply Forall_forall.
    intros text Hin. apply filter_In in Hin as [_ Hl].
    unfold is_long in Hl. now apply Nat.ltb_lt in Hl. }
  split; [exact Hlong|].
  unfold clean_text_of. apply join_nil_iff.
  eapply Forall_impl; [|exact Hlong].
  intros text Hl ->. cbn in Hl. lia.
Qed.

(** X6.  A content element inside another content element is read
    twice.  When a paragraph, heading or list item whose text is
    longer than 10 characters is a child of another such element (both
    outside the noise), the fragments of the outer element are its
    whole text, first, and then the kept fragments of its children:
    the inner text is among these and is also a part of the outer
    text. *)
Theorem nested_content_is_kept_twice
  (outer inner : string) (outer_attrs inner_attrs : list (string * string))
  (before after inner_children : list node) :
  mem outer content_tags = true -> mem inner content_tags = true ->
  let children :=
    (before ++ Elem inner inner_attrs inner_children :: after)%list in
  let inner_text := join "" (flat_map visible_strings inner_children) in
  let outer_text := join "" (flat_map visible_strings children) in
  10 < length inner_text ->
  text_elements_of [Elem outer outer_attrs children]
  = outer_text :: filter is_long (flat_map visible_fragments children)
  /\ In inner_text (filter is_long (flat_map visible_fragments children))
  /\ outer_text
     = join "" (flat_map visible_strings before)
       ++ inner_text ++ join "" (flat_map visible_strings after).
Proof.
  intros Ho Hi children inner_text outer_text Hl.
  assert (Hnoise : forall t, mem t content_tags = true ->
                             mem t noise_tags = false).
  { intros t Ht. apply mem_In in Ht. cbn in Ht.
    repeat (destruct Ht as [<-|Ht]; [reflexivity|]). destruct Ht. }
  assert (Hinner : visible_strings (Elem inner inner_attrs inner_children)
                   = flat_map visible_strings inner_children).
  { cbn [visible_strings]. now rewrite (Hnoise _ Hi). }
  assert (Hparts : outer_text
                   = join "" (flat_map visible_strings before)
                     ++ inner_text
                     ++ join "" (flat_map visible_strings after)).
  { subst outer_text children. rewrite flat_map_app. cbn [flat_map].
    now rewrite Hinner, !join_empty_app. }
  assert (Hlong : is_long inner_text = true).
  { unfold is_long. change min_fragment_length with 10.
    now apply Nat.ltb_lt. }
  assert (Houter : is_long outer_text = true).
  { unfold is_long. change min_fragment_length with 10.
    apply Nat.ltb_lt. rewrite Hparts, !length_append. lia. }
  repeat apply conj.
  - rewrite text_elements_fragments.
    cbn [flat_map visible_fragments]. rewrite (Hnoise _ Ho), Ho, app_nil_r.
    fold outer_text. cbn [app filter]. now rewrite Houter.
  - apply filter_In. split; [|exact Hlong].
    subst children. rewrite flat_map_app. apply in_or_app. right.
    cbn [flat_map visible_fragments]. rewrite (Hnoise _ Hi), Hi.
    left. reflexivity.
  - exact Hparts.
Qed.

Lemma nested_content_is_kept_twice_witness :
  text_elements_of
    [Elem "li" []
       [Text "Topic: "; Elem "p" [] [Text "Machine learning"];
        Text " (funded)"]]
  = ["Topic:Machine learning(funded)"; "Machine learning"].
Proof.
  destruct (nested_content_is_kept_twice "li" "p" [] []
              [Text "Topic: "] [Text " (funded)"] [Text "Machine learning"])
    as (Hall & _).
  - reflexivity.
  - reflexivity.
  - vm_compute. lia.
  - etransitivity; [exact Hall | vm_compute; reflexivity].
Defined.

(** X7.  For a blob of at least 50 characters the field extractor
    makes exactly one model call, whose prompt holds the first 4000
    characters of the blob (the whole blob when it is no longer).
    When the answer decodes, the decoded value is given as it is; when
    decoding fails with a [JSONDecodeError], [None] is given. *)
Theorem adequate_blob_calls_model_once `{Externals}
  (text_blob project_url : string) (w : World) :
  min_blob_length <= length text_blob ->
  let sent := take max_blob_length text_blob in
  let answer := completions_create (extraction_prompt sent) w in
  let r := run (extract_project_info text_blob project_url) w in
  filter is_completion (events_of r)
  = [Completion (extraction_prompt sent) (fst answer)]
  /\ world_of r = snd answer
  /\ (forall project_info,
        json_loads (fst answer) = Some project_info ->
        result_of r = Ret project_info)
  /\ (json_loads (fst answer) = None -> result_of r = Ret JNull)
  /\ length sent <= max_blob_length
  /\ (length text_blob <= max_blob_length -> sent = text_blob).
Proof.
  intros Hlen sent answer r.
  assert (Hcond : (text_blob =? "")
                  || (length text_blob <? min_blob_length)%nat = false).
  { apply orb_false_iff. split.
    - apply String.eqb_neq. intros ->. cbn in Hlen.
      unfold min_blob_length in Hlen. lia.
    - now apply Nat.ltb_ge. }
  assert (Htake : forall n s, length (take n s) <= n
                              /\ (length s <= n -> take n s = s)).
  { induction n as [|n IH]; intros s.
    - cbn. split; [lia|]. destruct s; [reflexivity | cbn; lia].
    - destruct s as [|c s]; cbn; [split; [lia | reflexivity]|].
      destruct (IH s) as [IH1 IH2]. split; [lia|].
      intros Hs. rewrite IH2; [reflexivity | lia]. }
  subst r. unfold run, extract_project_info. rewrite Hcond.
  unfold bind, complete, log, emit, ret. fold sent. fold answer.
  destruct answer as [response w'] eqn:Ea. cbn [fst snd].
  destruct (Htake max_blob_length text_blob) as [H1 H2].
  destruct (json_loads response) as [v|]; cbn; repeat apply conj;
    auto; try discriminate.
  intros project_info [= <-]. reflexivity.
Qed.

Lemma adequate_blob_calls_model_once_witness :
  result_of
    (@run (scripted uneven_records) _
       (extract_project_info
          "A funded project on proteins and how they fold in living cells."
          "https://www.findaphd.com/phds/project/proteins") 0)
  = Ret (JObj [("title", JStr "Folding proteins"); ("deadline", JStr "1 May")]).
Proof.
  destruct (@adequate_blob_calls_model_once (scripted uneven_records)
              "A funded project on proteins and how they fold in living cells."
              "https://www.findaphd.com/phds/project/proteins" 0)
    as (_ & _ & Hr & _).
  - vm_compute. lia.
  - apply Hr. vm_compute. reflexivity.
Defined.

(** ** Answers to the query prompt that are no list *)

Section OtherAnswers.

Import MiniJson.

Lemma take_first_char (n : nat) (s : string) :
  first_char (take n s) = None \/ first_char (take n s) = first_char s.
Proof. destruct n, s; cbn; auto. Qed.

(** The decoder reads nothing from the empty text or from a text that
    starts with a backtick. *)
Lemma loads_first_char (s : string) (v : json) :
  loads s = Some v ->
  exists c, first_char s = Some c /\ c <> "`"%char.
Proof.
  unfold loads. destruct s as [|c s]; [discriminate|].
  intros Hl. exists c. split; [reflexivity|]. intros ->.
  cbn in Hl. discriminate.
Qed.

End OtherAnswers.

(** X9.  When the answer to the query prompt decodes to a value that is
    neither a list, an object nor a string (a number, a boolean or
    [null]), [len] fails on it: the [TypeError] is not caught by the
    handler for decoding errors and ends the run before any page is
    fetched and before anything is written. *)
Theorem unsized_queries_raise `{Externals}
  (user_prompt : string) (max_projects : option Z) (w : World)
  (queries : json) :
  let answer := completions_create (query_prompt user_prompt) w in
  parse_queries (fst answer) = Some queries ->
  py_iter queries = None ->
  let r := run (main_agent user_prompt max_projects) w in
  r = (Raise TypeError, snd answer,
       (opening user_prompt (fst answer)
        ++ [Log DEBUG (MsgQueriesResponse (fst answer))])%list)
  /\ filter is_get (events_of r) = []
  /\ csv_writes (events_of r) = [].
Proof.
  intros answer Hparse Hiter r.
  assert (Hr : r = (Raise TypeError, snd answer,
                    (opening user_prompt (fst answer)
                     ++ [Log DEBUG (MsgQueriesResponse (fst answer))])%list)).
  { subst r. unfold run. rewrite main_agent_run. subst answer.
    destruct (completions_create (query_prompt user_prompt) w)
      as [response_text w1].
    cbn [fst snd] in *. cbv zeta. now rewrite Hparse, Hiter. }
  rewrite Hr. repeat split.
Qed.

Lemma unsized_queries_raise_witness :
  result_of (sample_run number_answer None) = Raise TypeError.
Proof.
  destruct (@unsized_queries_raise (scripted number_answer) "ai" None 0
              (JInt 42)) as (Hr & _).
  - vm_compute. reflexivity.
  - reflexivity.
  - unfold sample_run. now rewrite Hr.
Defined.

(** X11.  Only the exact opening fence [```json] is taken off.  A
    response that starts with a backtick in any other way (a bare
    [```], or [```JSON]) keeps it, or is left empty, and cannot be
    decoded: the parsing step fails.  The decoder is any one that, like
    [json.loads], reads nothing from the empty text or from a text that
    starts with a backtick. *)
Theorem other_fence_is_not_removed `{Externals} (response_text : string) :
  (forall s v, json_loads s = Some v ->
               exists c, first_char s = Some c /\ c <> "`"%char) ->
  first_char response_text = Some "`"%char ->
  startswith fence_open response_text = false ->
  parse_queries response_text = None.
Proof.
  intros Hdec Hfirst Hopen. unfold parse_queries, strip_fences, removeprefix.
  rewrite Hopen.
  destruct (json_loads (removesuffix fence_close response_text))
    as [v|] eqn:Hj; [|reflexivity].
  apply Hdec in Hj as (c & Hc & Hn). exfalso.
  unfold removesuffix in Hc.
  destruct (negb (fence_close =? "") && endswith fence_close response_text).
  - destruct (take_first_char
                (length response_text - length fence_close) response_text)
      as [Ht|Ht]; rewrite Ht in Hc; congruence.
  - congruence.
Qed.

Lemma other_fence_is_not_removed_witness :
  @parse_queries (scripted uneven_records)
    ("```" ++ nl ++ "[" ++ quoted "https://www.findaphd.com/phds/?Keywords=ai"
           ++ "]" ++ nl ++ "```")
  = None.
Proof.
  apply (@other_fence_is_not_removed (scripted uneven_records)).
  - exact loads_first_char.
  - reflexivity.
  - reflexivity.
Defined.

(** ** A cap that is always reached *)

Section AlwaysReached.

Context `{E : Externals}.

Variable max_projects : option Z.
Hypothesis always_reached :
  forall all_projects, cap_reached max_projects all_projects = true.

Lemma get_project_links_search (url : json) (w : World) :
  exists links w' ev,
    get_project_links url w = (Ret links, w', ev)
    /\ forallb search_only ev = true.
Proof.
  unfold get_project_links, bind, http_get, log, emit, ret.
  destruct (requests_get url get_headers 10 w) as [[text|] w'];
    cbn; eauto.
Qed.

Lemma links_loop_at_cap (total : nat) (links : list string)
  (link_idx : nat) (all_projects : list dict) (w : World) :
  links_loop max_projects total links link_idx all_projects w
  = (Ret all_projects, w,
     match links with
     | [] => []
     | _ :: _ => [Log INFO (MsgReachedMax max_projects)]
     end).
Proof.
  destruct links as [|url rest]; [reflexivity|].
  cbn [links_loop]. rewrite always_reached. now rewrite run_log.
Qed.

Lemma queries_loop_at_cap (total : nat) (queries : list json) :
  forall (query_idx : nat) (all_projects : list dict) (w : World)
         (r : outcome (list dict)) (w' : World) (ev : list event),
    queries_loop max_projects total queries query_idx all_projects w
    = (r, w', ev) ->
    r = Ret all_projects /\ forallb search_only ev = true.
Proof.
  induction queries as [|q rest IH]; intros idx acc w r w' ev.
  - cbn. intros [= <- <- <-]. auto.
  - cbn [queries_loop]. rewrite run_log.
    destruct (get_project_links_search q w) as (links & w1 & ev1 & Hl & H1).
    rewrite (run_bind _ _ _ _ _ _ Hl).
    destruct links as [|url links].
    + rewrite run_log.
      destruct (queries_loop max_projects total rest (S idx) acc w1)
        as [[r2 w2] ev2] eqn:Eq.
      intros [= <- <- <-]. apply IH in Eq as [-> H2].
      split; [reflexivity|]. cbn. rewrite forallb_app, H1. cbn. exact H2.
    + rewrite (run_bind _ _ _ _ _ _ (links_loop_at_cap _ _ _ _ _)).
      rewrite always_reached. cbn. intros [= <- <- <-].
      split; [reflexivity|]. cbn [forallb].
      rewrite forallb_app, H1. reflexivity.
Qed.

Lemma search_only_filters (ev : list event) :
  forallb search_only ev = true ->
  filter is_completion ev = [] /\ filter touches_project ev = []
  /\ csv_writes ev = [].
Proof.
  unfold csv_writes. induction ev as [|e ev IH]; [auto|].
  cbn [forallb filter]. intros H. apply andb_true_iff in H as [He Hev].
  destruct (IH Hev) as (-> & -> & ->).
  unfold search_only in He.
  apply andb_true_iff in He as [He H3]. apply andb_true_iff in He as [H1 H2].
  apply negb_true_iff in H1, H2, H3. now rewrite H1, H2, H3.
Qed.

End AlwaysReached.

(** X10.  With a negative cap the check of lines 274 and 297 holds from
    the start: a run accepts nothing and returns the empty list (unless
    it ends at the query generation), its only model call is the query
    generation, no project link is worked on and no CSV file is
    written.  Results pages are still fetched, up to the first one
    that has links. *)
Theorem negative_cap_accepts_nothing `{Externals}
  (user_prompt : string) (c : Z) (w : World) :
  (c < 0)%Z ->
  let answer := completions_create (query_prompt user_prompt) w in
  let r := run (main_agent user_prompt (Some c)) w in
  (forall all_projects,
     result_of r = Ret (Some all_projects) -> all_projects = [])
  /\ filter is_completion (events_of r)
     = [Completion (query_prompt user_prompt) (fst answer)]
  /\ filter touches_project (events_of r) = []
  /\ csv_writes (events_of r) = [].
Proof.
  intros Hc answer r.
  assert (Hcap : forall acc, cap_reached (Some c) acc = true).
  { intros acc. unfold cap_reached. apply andb_true_iff. split.
    - apply negb_true_iff, Z.eqb_neq. lia.
    - apply Z.leb_le. lia. }
  subst r answer. unfold run. rewrite main_agent_run.
  destruct (completions_create (query_prompt user_prompt) w)
    as [response_text w1].
  cbv zeta. cbn [fst].
  destruct (parse_queries response_text) as [q|];
    [|repeat split; intros rs [=]].
  destruct (py_iter q) as [queries|]; [|repeat split; intros rs [=]].
  destruct (queries_loop (Some c) (List.length queries) queries 1 [] w1)
    as [[r w2] ev] eqn:Eq.
  destruct (queries_loop_at_cap _ Hcap _ _ _ _ _ _ _ _ Eq) as [-> Hs].
  destruct (search_only_filters _ Hs) as (F1 & F2 & F3).
  cbn [result_of events_of fst snd]. unfold csv_writes in *.
  rewrite !filter_app, F1, F2, F3. repeat split.
  intros rs [= <-]. reflexivity.
Qed.

Lemma negative_cap_accepts_nothing_witness :
  result_of (sample_run uneven_records (Some (-1)%Z)) = Ret (Some []).
Proof.
  destruct (@negative_cap_accepts_nothing (scripted uneven_records) "ai"
              (-1)%Z 0) as (Hr & _).
  - lia.
  - destruct (result_of (sample_run uneven_records (Some (-1)%Z)))
      as [[rs|]|e] eqn:Er.
    + unfold sample_run in Er. now rewrite (Hr rs Er).
    + vm_compute in Er. discriminate.
    + vm_compute in Er. discriminate.
Defined.

(** ** Where the [url] of a record comes from *)

Section Provenance.

Context `{E : Externals}.

Variable max_projects : option Z.

Lemma names_fetched_more (ev ev' : list event) (new : list dict) :
  (forall e, In e ev -> In e ev') ->
  Forall (names_fetched_page ev) new -> Forall (names_fetched_page ev') new.
Proof.
  intros Hsub. apply Forall_impl. intros d (url & Hd & Hin).
  exists url. auto.
Qed.

Lemma get_clean_text_fetches (url : string) (w : World) :
  exists text w' ev,
    get_clean_text url w = (Ret text, w', ev) /\ In (Get (JStr url)) ev.
Proof.
  unfold get_clean_text, bind, http_get, log, emit, ret.
  destruct (requests_get (JStr url) get_headers 10 w) as [[text|] w'];
    cbn; do 3 eexists; (split; [reflexivity|]); right; left; reflexivity.
Qed.

(** The records the loop over the links adds name pages it fetched. *)
Lemma links_loop_names_pages (total : nat) (links : list string) :
  forall (link_idx : nat) (all_projects : list dict) (w : World)
         (res : list dict) (w' : World) (ev : list event),
    links_loop max_projects total links link_idx all_projects w
    = (Ret res, w', ev) ->
    exists new, res = (all_projects ++ new)%list
                /\ Forall (names_fetched_page ev) new.
Proof.
  induction links as [|url rest IH]; intros idx acc w res w' ev.
  - cbn. intros [= <- <- <-]. exists []. now rewrite app_nil_r.
  - cbn [links_loop]. destruct (cap_reached max_projects acc).
    + rewrite run_log. cbn. intros [= <- <- <-]. exists [].
      now rewrite app_nil_r.
    + rewrite run_log.
      destruct (get_clean_text_fetches url w) as (text & w1 & ev1 & Ht & Hg).
      rewrite (run_bind _ _ _ _ _ _ Ht).
      destruct (text =? "").
      * rewrite run_log.
        destruct (links_loop max_projects total rest (S idx) acc w1)
          as [[r2 w2] ev2] eqn:El.
        intros [= -> <- <-]. apply IH in El as (new & -> & Hn).
        exists new. split; [reflexivity|].
        eapply names_fetched_more; [|exact Hn].
        intros e He. right. apply in_or_app. right. now right.
      * destruct (extract_project_info_run text url w1)
          as (v & w2 & ev2 & Hx & _).
        rewrite (run_bind _ _ _ _ _ _ Hx).
        destruct (truthy v).
        -- destruct v as [| | | | | |d]; try (cbn; discriminate).
           rewrite run_log.
           destruct (links_loop max_projects total rest (S idx)
                       (acc ++ [dict_set "url" (JStr url) d]) w2)
             as [[r3 w3] ev3] eqn:El.
           intros [= -> <- <-]. apply IH in El as (new & -> & Hn).
           exists (dict_set "url" (JStr url) d :: new).
           rewrite <- app_assoc. split; [reflexivity|]. constructor.
           ++ exists url. split; [apply dict_get_set|].
              right. apply in_or_app. now left.
           ++ eapply names_fetched_more; [|exact Hn].
              intros e He. right. do 2 (apply in_or_app; right). now right.
        -- rewrite run_log.
           destruct (links_loop max_projects total rest (S idx) acc w2)
             as [[r3 w3] ev3] eqn:El.
           intros [= -> <- <-]. apply IH in El as (new & -> & Hn).
           exists new. split; [reflexivity|].
           eapply names_fetched_more; [|exact Hn].
           intros e He. right. do 2 (apply in_or_app; right). now right.
Qed.

(** So do the records the loop over the queries adds. *)
Lemma queries_loop_names_pages (total : nat) (queries : list json) :
  forall (query_idx : nat) (all_projects : list dict) (w : World)
         (res : list dict) (w' : World) (ev : list event),
    queries_loop max_projects total queries query_idx all_projects w
    = (Ret res, w', ev) ->
    exists new, res = (all_projects ++ new)%list
                /\ Forall (names_fetched_page ev) new.
Proof.
  induction queries as [|q rest IH]; intros idx acc w res w' ev.
  - cbn. intros [= <- <- <-]. exists []. now rewrite app_nil_r.
  - cbn [queries_loop]. rewrite run_log.
    destruct (get_project_links_run q w) as (links & w1 & ev1 & Hl & _).
    rewrite (run_bind _ _ _ _ _ _ Hl).
    destruct links as [|url links].
    + rewrite run_log.
      destruct (queries_loop max_projects total rest (S idx) acc w1)
        as [[r2 w2] ev2] eqn:Eq.
      intros [= -> <- <-]. apply IH in Eq as (new & -> & Hn).
      exists new. split; [reflexivity|].
      eapply names_fetched_more; [|exact Hn].
      intros e He. right. apply in_or_app. right. now right.
    + destruct (links_loop max_projects (List.length (url :: links))
                  (url :: links) 1 acc w1) as [[[acc'|e] w2] ev2] eqn:El.
      * rewrite (run_bind _ _ _ _ _ _ El).
        apply links_loop_names_pages in El as (new1 & -> & Hn1).
        destruct (cap_reached max_projects (acc ++ new1)).
        -- cbn. intros [= <- <- <-]. exists new1. split; [reflexivity|].
           eapply names_fetched_more; [|exact Hn1].
           intros e He. right. apply in_or_app. right.
           apply in_or_app. now left.
        -- destruct (queries_loop max_projects total rest (S idx)
                       (acc ++ new1) w2) as [[r3 w3] ev3] eqn:Eq.
           intros [= -> <- <-]. apply IH in Eq as (new & -> & Hn).
           exists (new1 ++ new)%list. rewrite app_assoc.
           split; [reflexivity|]. apply Forall_app. split.
           ++ eapply names_fetched_more; [|exact Hn1].
              intros e He. right. apply in_or_app. right.
              apply in_or_app. now left.
           ++ eapply names_fetched_more; [|exact Hn].
              intros e He. right. do 2 (apply in_or_app; right). exact He.
      * rewrite (run_bind_raise _ _ _ _ _ _ El). discriminate.
Qed.

End Provenance.

(** X8.  Every record a run returns carries as its [url] the address
    of a project page the run fetched: the source URL is attached by
    the orchestrator after the model has answered, so whatever [url]
    the model puts into its answer is overwritten. *)
Theorem records_name_fetched_pages `{Externals}
  (user_prompt : string) (max_projects : option Z) (w : World)
  (all_projects : list dict) :
  let r := run (main_agent user_prompt max_projects) w in
  result_of r = Ret (Some all_projects) ->
  Forall (names_fetched_page (events_of r)) all_projects.
Proof.
  intros r. subst r. unfold run. rewrite main_agent_run.
  destruct (completions_create (query_prompt user_prompt) w)
    as [response_text w1].
  cbv zeta. destruct (parse_queries response_text) as [q|]; [|discriminate].
  destruct (py_iter q) as [queries|]; [|discriminate].
  destruct (queries_loop max_projects (List.length queries) queries 1 [] w1)
    as [[[rs|e] w2] ev] eqn:Eq; [|discriminate].
  cbn [result_of events_of fst snd]. intros [= ->].
  apply queries_loop_names_pages in Eq as (new & Hnew & Hn).
  cbn [app] in Hnew. subst new.
  eapply names_fetched_more; [|exact Hn].
  intros e He. apply in_or_app. right. apply in_or_app. right.
  apply in_or_app. now left.
Qed.

Lemma records_name_fetched_pages_witness :
  Forall (names_fetched_page (events_of (sample_run uneven_records (Some 1%Z))))
    [[("title", JStr "Walking robots");
      ("url", JStr "https://www.findaphd.com/phds/project/robots")]].
Proof.
  apply (@records_name_fetched_pages (scripted uneven_records) "ai"
           (Some 1%Z) 0).
  vm_compute. reflexivity.
Defined.

(** ** One turn of the loops *)

Section Turns.

Context `{E : Externals}.

Variable max_projects : option Z.

Lemma get_clean_text_no_call (url : string) (w : World) :
  exists text w' ev,
    get_clean_text url w = (Ret text, w', ev)
    /\ filter is_completion ev = [].
Proof.
  unfold get_clean_text, bind, http_get, log, emit, ret.
  destruct (requests_get (JStr url) get_headers 10 w) as [[text|] w'];
    cbn; eauto 8.
Qed.

Lemma get_project_links_no_call (url : json) (w : World) :
  exists links w' ev,
    get_project_links url w = (Ret links, w', ev)
    /\ filter is_completion ev = [] /\ accepted ev = 0.
Proof.
  unfold get_project_links, bind, http_get, log, emit, ret.
  destruct (requests_get url get_headers 10 w) as [[text|] w'];
    cbn; eauto 8.
Qed.

(** A turn of the loop over the links, once the text of the page is
    there. *)
Lemma links_loop_turn (total : nat) (url : string) (rest : list string)
  (link_idx : nat) (all_projects : list dict) (w : World)
  (text : string) (w1 : World) (ev1 : list event) :
  cap_reached max_projects all_projects = false ->
  get_clean_text url w = (Ret text, w1, ev1) ->
  links_loop max_projects total (url :: rest) link_idx all_projects w
  = (let '(r, w', ev) :=
       (if text =? "" then
          log WARNING (MsgNoText url) ;;
          links_loop max_projects total rest (S link_idx) all_projects
        else
          project_info <- extract_project_info text url ;;
          if truthy project_info then
            match project_info with
            | JObj d =>
                log INFO (MsgAccepted
                            (title_of (dict_set "url" (JStr url) d))) ;;
                links_loop max_projects total rest (S link_idx)
                  (all_projects ++ [dict_set "url" (JStr url) d])
            | _ => raise TypeError
            end
          else
            log WARNING (MsgFailed url) ;;
            links_loop max_projects total rest (S link_idx) all_projects) w1
     in (r, w', Log INFO (MsgProject link_idx total url) :: (ev1 ++ ev)%list)).
Proof.
  intros Hcap Ht. cbn [links_loop]. rewrite Hcap, run_log.
  rewrite (run_bind _ _ _ _ _ _ Ht).
  destruct (text =? "");
    match goal with
    | |- context [bind ?a ?b w1] =>
        destruct (bind a b w1) as [[r w'] ev]
    end;
    reflexivity.
Qed.

Lemma dict_get_set_other (k k' : string) (v : json) (d : dict) :
  k <> k' -> dict_get k (dict_set k' v d) = dict_get k d.
Proof.
  intros Hk. induction d as [|[k0 v0] d IH]; cbn.
  - apply String.eqb_neq in Hk. now rewrite String.eqb_sym, Hk.
  - destruct (k0 =? k') eqn:E0; cbn.
    + apply String.eqb_eq in E0. subst k0.
      apply String.eqb_neq in Hk. now rewrite String.eqb_sym, Hk.
    + now rewrite IH.
Qed.

Lemma keys_dict_set (k : string) (v : json) (d : dict) :
  keys (dict_set k v d)
  = if dict_mem k d then keys d else (keys d ++ [k])%list.
Proof.
  unfold dict_mem, mem, keys. induction d as [|[k0 v0] d IH]; [reflexivity|].
  cbn. rewrite (String.eqb_sym k k0). destruct (k0 =? k); cbn.
  - reflexivity.
  - rewrite IH. now destruct (existsb (String.eqb k) (map fst d)).
Qed.

End Turns.

(** X12.  A link whose page gives no text (the fetch failed, or the
    page has no fragment that is kept) is passed over: the loop makes
    no model call for it, keeps the records gathered so far and goes
    on with the next link as if the link had not been there. *)
Theorem link_without_text_is_passed_over `{Externals}
  (max_projects : option Z) (total : nat) (url : string)
  (rest : list string) (link_idx : nat) (all_projects : list dict)
  (w : World) :
  cap_reached max_projects all_projects = false ->
  result_of (run (get_clean_text url) w) = Ret "" ->
  let w1 := world_of (run (get_clean_text url) w) in
  let after :=
    run (links_loop max_projects total rest (S link_idx) all_projects) w1 in
  let r :=
    run (links_loop max_projects total (url :: rest) link_idx all_projects) w in
  result_of r = result_of after
  /\ world_of r = world_of after
  /\ filter is_completion (events_of r)
     = filter is_completion (events_of after)
  /\ accepted (events_of r) = accepted (events_of after).
Proof.
  intros Hcap Htext w1 after r. subst r after w1. unfold run in *.
  destruct (get_clean_text_no_call url w) as (text & w1 & ev1 & Ht & Hc).
  rewrite Ht in *. cbn [result_of world_of fst snd] in *.
  injection Htext as ->.
  rewrite (links_loop_turn _ _ _ _ _ _ _ _ _ _ Hcap Ht).
  cbn [String.eqb]. rewrite run_log.
  destruct (links_loop max_projects total rest (S link_idx) all_projects w1)
    as [[r2 w2] ev2].
  cbn [result_of world_of events_of fst snd].
  assert (Ha : accepted ev1 = 0).
  { destruct (get_clean_text_run url w) as (t & w0 & e0 & Ht' & Hh).
    rewrite Ht in Ht'. injection Ht' as _ _ <-.
    now apply calm_accepted, harmless_calm. }
  repeat split.
  - cbn [filter is_completion]. rewrite filter_app, Hc. reflexivity.
  - change (Log INFO (MsgProject link_idx total url)
            :: ev1 ++ Log WARNING (MsgNoText url) :: ev2)%list
      with ([Log INFO (MsgProject link_idx total url)]
            ++ ev1 ++ [Log WARNING (MsgNoText url)] ++ ev2)%list.
    rewrite !accepted_app, Ha. reflexivity.
Qed.

Lemma link_without_text_is_passed_over_witness :
  result_of
    (@run (scripted uneven_records) _
       (links_loop None 2
          ["https://www.findaphd.com/phds/project/gone";
           "https://www.findaphd.com/phds/project/robots"] 1 []) 0)
  = result_of
      (@run (scripted uneven_records) _
         (links_loop None 2
            ["https://www.findaphd.com/phds/project/robots"] 2 []) 1).
Proof.
  apply (@link_without_text_is_passed_over (scripted uneven_records) None 2
           "https://www.findaphd.com/phds/project/gone"
           ["https://www.findaphd.com/phds/project/robots"] 1 [] 0).
  - reflexivity.
  - vm_compute. reflexivity.
Defined.

(** X13.  A query whose results page gives no link (the fetch failed,
    or the page has no listing link) is passed over: no link is worked
    on for it, the records gathered so far are kept and the loop goes
    on with the next query. *)
Theorem query_without_links_is_passed_over `{Externals}
  (max_projects : option Z) (total : nat) (query_url : json)
  (rest : list json) (query_idx : nat) (all_projects : list dict)
  (w : World) :
  result_of (run (get_project_links query_url) w) = Ret [] ->
  let w1 := world_of (run (get_project_links query_url) w) in
  let after :=
    run (queries_loop max_projects total rest (S query_idx) all_projects) w1 in
  let r :=
    run (queries_loop max_projects total (query_url :: rest) query_idx
           all_projects) w in
  result_of r = result_of after
  /\ world_of r = world_of after
  /\ filter is_completion (events_of r)
     = filter is_completion (events_of after)
  /\ accepted (events_of r) = accepted (events_of after).
Proof.
  intros Hlinks w1 after r. subst r after w1. unfold run in *.
  destruct (get_project_links_no_call query_url w)
    as (links & w1 & ev1 & Hl & Hc & Ha).
  rewrite Hl in *. cbn [result_of world_of fst snd] in *.
  injection Hlinks as ->.
  cbn [queries_loop]. rewrite run_log, (run_bind _ _ _ _ _ _ Hl), run_log.
  destruct (queries_loop max_projects total rest (S query_idx) all_projects w1)
    as [[r2 w2] ev2].
  cbn [result_of world_of events_of fst snd]. repeat split.
  - cbn [filter is_completion]. rewrite filter_app, Hc. reflexivity.
  - change (Log INFO (MsgQuery query_idx total query_url)
            :: ev1 ++ Log WARNING (MsgNoLinks query_idx) :: ev2)%list
      with ([Log INFO (MsgQuery query_idx total query_url)]
            ++ ev1 ++ [Log WARNING (MsgNoLinks query_idx)] ++ ev2)%list.
    rewrite !accepted_app, Ha. reflexivity.
Qed.

Lemma query_without_links_is_passed_over_witness :
  result_of
    (@run (scripted uneven_records) _
       (queries_loop None 2
          [JStr "https://www.findaphd.com/phds/?Keywords=none";
           JStr "https://www.findaphd.com/phds/?Keywords=ai"] 1 []) 0)
  = result_of
      (@run (scripted uneven_records) _
         (queries_loop None 2
            [JStr "https://www.findaphd.com/phds/?Keywords=ai"] 2 []) 1).
Proof.
  apply (@query_without_links_is_passed_over (scripted uneven_records) None 2
           (JStr "https://www.findaphd.com/phds/?Keywords=none")
           [JStr "https://www.findaphd.com/phds/?Keywords=ai"] 1 [] 0).
  vm_compute. reflexivity.
Defined.

Section TurnEvents.

Context `{E : Externals}.

Lemma get_clean_text_accepts_nothing (url : string) (w : World)
  (text : string) (w1 : World) (ev1 : list event) :
  get_clean_text url w = (Ret text, w1, ev1) -> accepted ev1 = 0.
Proof.
  intros Ht. destruct (get_clean_text_run url w) as (t & w0 & e0 & Ht' & Hh).
  rewrite Ht in Ht'. injection Ht' as _ _ <-.
  now apply calm_accepted, harmless_calm.
Qed.

Lemma extract_accepts_nothing (text url : string) (w : World)
  (v : json) (w1 : World) (ev1 : list event) :
  extract_project_info text url w = (Ret v, w1, ev1) -> accepted ev1 = 0.
Proof.
  intros Hx.
  destruct (extract_project_info_run text url w) as (v0 & w0 & e0 & Hx' & Hc & _).
  rewrite Hx in Hx'. injection Hx' as _ _ <-.
  now apply calm_accepted.
Qed.

End TurnEvents.

(** X14.  A link for which the field extractor gives nothing usable
    ([None] for a short blob or an answer that does not decode, or an
    answer that decodes to [null], [false], zero or an empty string,
    list or object) is passed over: no record is added and the loop
    goes on with the next link. *)
Theorem unusable_answer_is_passed_over `{Externals}
  (max_projects : option Z) (total : nat) (url : string)
  (rest : list string) (link_idx : nat) (all_projects : list dict)
  (w w1 w2 : World) (text : string) (ev1 ev2 : list event)
  (project_info : json) :
  cap_reached max_projects all_projects = false ->
  run (get_clean_text url) w = (Ret text, w1, ev1) ->
  text <> "" ->
  run (extract_project_info text url) w1 = (Ret project_info, w2, ev2) ->
  truthy project_info = false ->
  let after :=
    run (links_loop max_projects total rest (S link_idx) all_projects) w2 in
  let r :=
    run (links_loop max_projects total (url :: rest) link_idx all_projects) w in
  result_of r = result_of after
  /\ world_of r = world_of after
  /\ accepted (events_of r) = accepted (events_of after).
Proof.
  intros Hcap Ht Hne Hx Hfalse after r. subst r after. unfold run in *.
  rewrite (links_loop_turn _ _ _ _ _ _ _ _ _ _ Hcap Ht).
  apply String.eqb_neq in Hne. rewrite Hne.
  rewrite (run_bind _ _ _ _ _ _ Hx), Hfalse, run_log.
  destruct (links_loop max_projects total rest (S link_idx) all_projects w2)
    as [[r3 w3] ev3].
  cbn [result_of world_of events_of fst snd]. repeat split.
  change (Log INFO (MsgProject link_idx total url)
          :: ev1 ++ ev2 ++ Log WARNING (MsgFailed url) :: ev3)%list
    with ([Log INFO (MsgProject link_idx total url)]
          ++ ev1 ++ ev2 ++ [Log WARNING (MsgFailed url)] ++ ev3)%list.
  rewrite !accepted_app, (get_clean_text_accepts_nothing _ _ _ _ _ Ht),
    (extract_accepts_nothing _ _ _ _ _ _ Hx).
  reflexivity.
Qed.

Lemma unusable_answer_is_passed_over_witness :
  result_of
    (@run (scripted empty_array_answer) _
       (links_loop None 1
          ["https://www.findaphd.com/phds/project/robots"] 1 []) 0)
  = Ret [].
Proof.
  destruct (@unusable_answer_is_passed_over (scripted empty_array_answer)
              None 1 "https://www.findaphd.com/phds/project/robots" [] 1 []
              0 1 2
              "A funded project on robots that learn to walk on uneven ground."
              [ Log INFO (MsgExtractingText
                            "https://www.findaphd.com/phds/project/robots");
                Get (JStr "https://www.findaphd.com/phds/project/robots");
                Sleep 3; Log INFO (MsgExtractedText 1) ]
              [ Log INFO MsgExtractingInfo;
                Completion
                  (extraction_prompt
                     "A funded project on robots that learn to walk on uneven ground.")
                  "[]";
                Log DEBUG (MsgExtractionResponse "[]") ]
              (JArr [])) as (Hr & _).
  - reflexivity.
  - vm_compute. reflexivity.
  - discriminate.
  - vm_compute. reflexivity.
  - reflexivity.
  - exact Hr.
Defined.

(** X15.  When the field extractor gives an object that is not empty,
    the record added is that object with the source URL under [url]:
    every other field keeps its value, the keys keep their order, a
    [url] the model gave is overwritten where it stands, and otherwise
    [url] becomes the last key.  The loop then goes on with the next
    link and one record more. *)
Theorem accepted_record_keeps_answer `{Externals}
  (max_projects : option Z) (total : nat) (url : string)
  (rest : list string) (link_idx : nat) (all_projects : list dict)
  (w w1 w2 : World) (text : string) (ev1 ev2 : list event)
  (answer : dict) :
  cap_reached max_projects all_projects = false ->
  run (get_clean_text url) w = (Ret text, w1, ev1) ->
  text <> "" ->
  run (extract_project_info text url) w1 = (Ret (JObj answer), w2, ev2) ->
  answer <> [] ->
  let record := dict_set "url" (JStr url) answer in
  let after :=
    run (links_loop max_projects total rest (S link_idx)
           (all_projects ++ [record])) w2 in
  let r :=
    run (links_loop max_projects total (url :: rest) link_idx all_projects) w in
  result_of r = result_of after
  /\ world_of r = world_of after
  /\ accepted (events_of r) = S (accepted (events_of after))
  /\ dict_get "url" record = Some (JStr url)
  /\ (forall k, k <> "url" -> dict_get k record = dict_get k answer)
  /\ keys record
     = if dict_mem "url" answer then keys answer
       else (keys answer ++ ["url"])%list.
Proof.
  intros Hcap Ht Hne Hx Hd record after r. subst r after. unfold run in *.
  rewrite (links_loop_turn _ _ _ _ _ _ _ _ _ _ Hcap Ht).
  apply String.eqb_neq in Hne. rewrite Hne.
  rewrite (run_bind _ _ _ _ _ _ Hx).
  assert (Htrue : truthy (JObj answer) = true)
    by (destruct answer; [now elim Hd | reflexivity]).
  rewrite Htrue, run_log. fold record.
  destruct (links_loop max_projects total rest (S link_idx)
              (all_projects ++ [record]) w2) as [[r3 w3] ev3].
  cbn [result_of world_of events_of fst snd]. repeat apply conj;
    try reflexivity.
  - change (Log INFO (MsgProject link_idx total url)
            :: ev1 ++ ev2 ++ Log INFO (MsgAccepted (title_of record)) :: ev3)%list
      with ([Log INFO (MsgProject link_idx total url)]
            ++ ev1 ++ ev2
            ++ [Log INFO (MsgAccepted (title_of record))] ++ ev3)%list.
    rewrite !accepted_app, (get_clean_text_accepts_nothing _ _ _ _ _ Ht),
      (extract_accepts_nothing _ _ _ _ _ _ Hx).
    reflexivity.
  - apply dict_get_set.
  - intros k Hk. now apply dict_get_set_other.
  - apply keys_dict_set.
Qed.

Lemma accepted_record_keeps_answer_witness :
  result_of
    (@run (scripted uneven_records) _
       (links_loop None 1
          ["https://www.findaphd.com/phds/project/robots"] 1 []) 0)
  = Ret [[("title", JStr "Walking robots");
          ("url", JStr "https://www.findaphd.com/phds/project/robots")]].
Proof.
  destruct (@accepted_record_keeps_answer (scripted uneven_records)
              None 1 "https://www.findaphd.com/phds/project/robots" [] 1 []
              0 1 2
              "A funded project on robots that learn to walk on uneven ground."
              [ Log INFO (MsgExtractingText
                            "https://www.findaphd.com/phds/project/robots");
                Get (JStr "https://www.findaphd.com/phds/project/robots");
                Sleep 3; Log INFO (MsgExtractedText 1) ]
              [ Log INFO MsgExtractingInfo;
                Completion
                  (extraction_prompt
                     "A funded project on robots that learn to walk on uneven ground.")
                  robots_record;
                Log DEBUG (MsgExtractionResponse (take 200 robots_record)) ]
              [("title", JStr "Walking robots")]) as (Hr & _).
  - reflexivity.
  - vm_compute. reflexivity.
  - discriminate.
  - vm_compute. reflexivity.
  - discriminate.
  - exact Hr.
Defined.
